(** * Furniture recommendation engine: rank fusion, diversity reranking,
      pagination, query cache and the recommend endpoint.

    Shallow embedding of
      - [tests/test_retrieval.py]  (the fallback [VectorStore] with
        [_reciprocal_rank_fusion] and [_maximal_marginal_relevance]),
      - [server/retrieval.py]      ([VectorStore.search]),
      - [server/cache.py]          ([QueryCache]),
      - [server/models.py]         ([RecommendRequest] field constraints),
      - [server/main.py]           ([recommend_furniture]).

    The [float] scores of rank fusion are computed with the operations of
    an arithmetic [PyFloat], of which [binary64] is the one CPython runs
    (IEEE 754 doubles, here Rocq's primitive floats) and [exact] the
    rationals; the scores of the reranker and the prices are exact
    rationals ([Q]).  Python [int] values are [Z] or [nat]; [str] is
    [string]; a [dict] whose iteration order is observed is an
    insertion-ordered association list, a [dict] used only as a map is a
    [gmap]. *)

From Stdlib Require Import ZArith QArith Lia Ascii String DecimalString Floats.
From Stdlib Require Uint63.
From stdpp Require Import base option list strings gmap.

Local Open Scope string_scope.
Local Open Scope list_scope.
Local Open Scope Z_scope.

(** ** Python results: a value or a raised exception *)

Inductive pyexn : Type :=
| KeyError
| ValueError
| IndexError
| ZeroDivisionError
| AttributeError
| ValidationError
| HTTPException (status_code : Z) (detail : exn_detail)
| LoopBudget   (* the model's iteration budget ran out; never a Python exception *)
with exn_detail : Type :=
| Text (s : string)
| StrOf (e : pyexn).   (* [str(e)] *)

Inductive result (A : Type) : Type :=
| Ok (a : A)
| Raise (e : pyexn).
Arguments Ok {A} a.
Arguments Raise {A} e.

Definition rbind {A B} (r : result A) (f : A -> result B) : result B :=
  match r with
  | Ok a => f a
  | Raise e => Raise e
  end.

Notation "'let*' x ':=' r 'in' k" := (rbind r (fun x => k))
  (at level 10, x pattern, r at level 100, k at level 200).

(** ** Python floats

    A CPython [float] is an IEEE 754 binary64 number; [x / y], [x + y] and
    [x <= y] on floats are the correctly rounded operations of that format.
    The score computations below use the operations of this interface.
    [binary64] instantiates it with Rocq's primitive floats, which are the
    same doubles with the same rounding (to nearest, ties to even);
    [exact] instantiates it with the rationals, that is the arithmetic
    without rounding. *)

Class PyFloat : Type := {
  pyfloat : Type;
  f_one : pyfloat;                         (* the literal [1.0] *)
  f_of_int : Z -> pyfloat;                 (* an [int] operand converted to [float] *)
  f_div : pyfloat -> pyfloat -> pyfloat;   (* [x / y], for [y] other than zero *)
  f_add : pyfloat -> pyfloat -> pyfloat;   (* [x + y] *)
  f_leb : pyfloat -> pyfloat -> bool       (* [x <= y] *)
}.

(** The interpreter's arithmetic.  The conversion of an [int] is that of
    integers in [0, 2^63). *)
Definition binary64 : PyFloat := {|
  pyfloat := PrimFloat.float;
  f_one := PrimFloat.one;
  f_of_int := fun z => PrimFloat.of_uint63 (Uint63.of_Z z);
  f_div := PrimFloat.div;
  f_add := PrimFloat.add;
  f_leb := PrimFloat.leb
|}.

(** The arithmetic without rounding *)
Definition exact : PyFloat := {|
  pyfloat := Q;
  f_one := 1%Q;
  f_of_int := inject_Z;
  f_div := Qdiv;
  f_add := Qplus;
  f_leb := Qle_bool
|}.

(** The doubles a score can be: zero, a positive number or [inf], never
    [nan] or a negative number.  [SpecFloat.spec_float] is the standard
    library's reading of a double as sign, mantissa and exponent. *)
Module Binary64.

Definition nonneg_spec (f : spec_float) : bool :=
  match f with
  | S754_nan => false
  | S754_zero s | S754_infinity s | S754_finite s _ _ => negb s
  end.

Definition nonneg (x : PrimFloat.float) : Prop := nonneg_spec (Prim2SF x) = true.

End Binary64.

(** ** Python sequences *)

Module Py.

(** Clamp a slice bound the way [list.__getitem__] does for step 1:
    a negative bound counts from the end, then the bound is clipped to
    [0 .. len]. *)
Definition slice_bound (n : nat) (i : Z) : nat :=
  if i <? 0 then Z.to_nat (Z.max 0 (i + Z.of_nat n))
  else Nat.min (Z.to_nat i) n.

(** [l[a:b]] *)
Definition slice {A} (l : list A) (a b : Z) : list A :=
  let n := length l in
  let lo := slice_bound n a in
  let hi := slice_bound n b in
  firstn (hi - lo) (skipn lo l).

(** [l[:b]] *)
Definition slice_to {A} (l : list A) (b : Z) : list A :=
  firstn (slice_bound (length l) b) l.

(** [l[i]] for a non-negative index *)
Definition index {A} (l : list A) (i : nat) : result A :=
  match nth_error l i with
  | Some x => Ok x
  | None => Raise IndexError
  end.

(** [l.remove(x)]: drops the first occurrence, [ValueError] when absent *)
Fixpoint remove (x : nat) (l : list nat) : result (list nat) :=
  match l with
  | [] => Raise ValueError
  | y :: l' =>
      if Nat.eqb y x then Ok l'
      else let* r := remove x l' in Ok (y :: r)
  end.

(** [a // b] on integers: floor division, as [Z.div] *)
Definition floordiv (a b : Z) : result Z :=
  if b =? 0 then Raise ZeroDivisionError else Ok (a / b).

(** [str.lower()] on ASCII text (other characters are left as they are) *)
Definition lower_ascii (c : ascii) : ascii :=
  let n := nat_of_ascii c in
  if (65 <=? n)%nat && (n <=? 90)%nat then ascii_of_nat (n + 32) else c.

Fixpoint lower (s : string) : string :=
  match s with
  | EmptyString => EmptyString
  | String c s' => String (lower_ascii c) (lower s')
  end.

(** [needle in hay] on strings *)
Fixpoint contains (needle hay : string) : bool :=
  if String.prefix needle hay then true
  else match hay with
       | EmptyString => false
       | String _ hay' => contains needle hay'
       end.

(** [str(n)] for a non-negative integer *)
Definition str_of_nat (n : nat) : string := NilZero.string_of_uint (Nat.to_uint n).

(** [list(range(n))] *)
Definition range (n : nat) : list nat := seq 0 n.

(** *** Insertion-ordered dictionaries with string keys *)
Section Dict.
Context {V : Type}.

Definition dict : Type := list (string * V).

Fixpoint get (d : dict) (k : string) : option V :=
  match d with
  | [] => None
  | (k', v) :: d' => if String.eqb k' k then Some v else get d' k
  end.

(** [k in d] *)
Definition mem (d : dict) (k : string) : bool :=
  match get d k with Some _ => true | None => false end.

(** [d[k]] *)
Definition getitem (d : dict) (k : string) : result V :=
  match get d k with
  | Some v => Ok v
  | None => Raise KeyError
  end.

(** [d[k] = v]: an existing key keeps its position, a new key goes last *)
Fixpoint set (d : dict) (k : string) (v : V) : dict :=
  match d with
  | [] => [(k, v)]
  | (k', v') :: d' =>
      if String.eqb k' k then (k', v) :: d'
      else (k', v') :: set d' k v
  end.

(** [d.items()] *)
Definition items (d : dict) : list (string * V) := d.

Definition keys (d : dict) : list string := map fst d.
End Dict.
Arguments dict V : clear implicits.

(** *** [sorted(l, key=..., reverse=True)]
    Python's sort is stable, also with [reverse=True]: elements with equal
    keys keep their input order.  A stable sort has one possible output,
    which this insertion sort computes. *)
Section SortedDesc.
Context {A : Type} (key : A -> Q).

Fixpoint insert_desc (x : A) (l : list A) : list A :=
  match l with
  | [] => [x]
  | y :: l' =>
      if Qle_bool (key y) (key x) then x :: y :: l'
      else y :: insert_desc x l'
  end.

Definition sorted_desc (l : list A) : list A := foldr insert_desc [] l.
End SortedDesc.

(** *** [sorted(l, key=..., reverse=True)] with [float] keys
    The sort leaves [x] before a later [y] unless [key x < key y], which for
    floats other than [nan] is to say when [key y <= key x], in the
    arithmetic's own comparison. *)
Section SortedFloats.
Context {fl : PyFloat} {A : Type} (key : A -> pyfloat).

Fixpoint insert_float_desc (x : A) (l : list A) : list A :=
  match l with
  | [] => [x]
  | y :: l' =>
      if f_leb (key y) (key x) then x :: y :: l'
      else y :: insert_float_desc x l'
  end.

Definition sorted_float_desc (l : list A) : list A := foldr insert_float_desc [] l.
End SortedFloats.

End Py.

(** ** The fallback retrieval classes of [tests/test_retrieval.py] *)

Module Mock.

Record ProductMetadata : Type := mkProduct {
  uniq_id : string;
  title : string;
  description : string;
  price : Q;
  categories : list string;
  image_url : string
}.

Section RankFusion.
Context {fl : PyFloat}.

(** [1.0 / (i + 1)] *)
Definition reciprocal_rank (i : nat) : pyfloat :=
  f_div f_one (f_of_int (Z.of_nat i + 1)).

(** [for i, candidate in enumerate(cs): scores[candidate.uniq_id] = 1.0 / (i + 1)],
    with [enumerate] started at [i] and the dictionary built so far in [scores]. *)
Fixpoint assign_scores (i : nat) (cs : list ProductMetadata) (scores : Py.dict pyfloat)
  : Py.dict pyfloat :=
  match cs with
  | [] => scores
  | c :: cs' => assign_scores (S i) cs' (Py.set scores (uniq_id c) (reciprocal_rank i))
  end.

(** The two dictionaries threaded through the combination loops *)
Record fusion_state : Type := mkFusion {
  combined_scores : Py.dict pyfloat;
  all_candidates : Py.dict ProductMetadata
}.

(** [for candidate in text_candidates: ...] *)
Fixpoint add_text_scores (text_scores : Py.dict pyfloat) (cs : list ProductMetadata)
  (st : fusion_state) : result fusion_state :=
  match cs with
  | [] => Ok st
  | c :: cs' =>
      let* s := Py.getitem text_scores (uniq_id c) in
      add_text_scores text_scores cs'
        {| combined_scores := Py.set (combined_scores st) (uniq_id c) s;
           all_candidates := Py.set (all_candidates st) (uniq_id c) c |}
  end.

(** [for candidate in image_candidates: ...] *)
Fixpoint add_image_scores (image_scores : Py.dict pyfloat) (cs : list ProductMetadata)
  (st : fusion_state) : result fusion_state :=
  match cs with
  | [] => Ok st
  | c :: cs' =>
      let* s := Py.getitem image_scores (uniq_id c) in
      let* combined :=
        if Py.mem (combined_scores st) (uniq_id c) then
          let* old := Py.getitem (combined_scores st) (uniq_id c) in
          Ok (Py.set (combined_scores st) (uniq_id c) (f_add old s))
        else Ok (Py.set (combined_scores st) (uniq_id c) s) in
      add_image_scores image_scores cs'
        {| combined_scores := combined;
           all_candidates := Py.set (all_candidates st) (uniq_id c) c |}
  end.

(** The state after both combination loops *)
Definition combine (text_candidates image_candidates : list ProductMetadata)
  : result fusion_state :=
  let text_scores := assign_scores 0 text_candidates [] in
  let image_scores := assign_scores 0 image_candidates [] in
  let* st := add_text_scores text_scores text_candidates
               {| combined_scores := []; all_candidates := [] |} in
  add_image_scores image_scores image_candidates st.

(** [for candidate_id, score in sorted_candidates[:k]: ...] *)
Fixpoint collect (all : Py.dict ProductMetadata) (top : list (string * pyfloat))
  (fused_candidates : list ProductMetadata) : list ProductMetadata :=
  match top with
  | [] => fused_candidates
  | (candidate_id, _) :: top' =>
      match Py.get all candidate_id with
      | Some c => collect all top' (fused_candidates ++ [c])
      | None => collect all top' fused_candidates
      end
  end.

Definition _reciprocal_rank_fusion (text_candidates image_candidates : list ProductMetadata)
  (k : Z) : result (list ProductMetadata) :=
  let* st := combine text_candidates image_candidates in
  let sorted_candidates := Py.sorted_float_desc snd (Py.items (combined_scores st)) in
  Ok (collect (all_candidates st) (Py.slice_to sorted_candidates k) []).

End RankFusion.

(** *** Maximal marginal relevance *)

(** The score computed in the body of [for idx in remaining] when
    [len(selected) = n_selected], in exact arithmetic:
    [relevance = 1.0 / (idx + 1)], [diversity = 1.0 - (len(selected) * 0.1)]. *)
Definition mmr_score (lambda_param : Q) (n_selected idx : nat) : Q :=
  let relevance := (1 # Pos.of_succ_nat idx)%Q in
  let diversity := (1 - inject_Z (Z.of_nat n_selected) * (1 # 10))%Q in
  (lambda_param * relevance - (1 - lambda_param) * diversity)%Q.

(** [mmr_score > best_score], where [None] stands for [-float('inf')] *)
Definition better (mmr : Q) (best_score : option Q) : bool :=
  match best_score with
  | None => true
  | Some b => negb (Qle_bool mmr b)
  end.

(** [for idx in remaining: ...], threading [(best_score, best_idx)] *)
Fixpoint scan_best (lambda_param : Q) (n_selected : nat) (remaining : list nat)
  (best_score : option Q) (best_idx : option nat) : option Q * option nat :=
  match remaining with
  | [] => (best_score, best_idx)
  | idx :: rest =>
      let mmr := mmr_score lambda_param n_selected idx in
      if better mmr best_score
      then scan_best lambda_param n_selected rest (Some mmr) (Some idx)
      else scan_best lambda_param n_selected rest best_score best_idx
  end.

(** [while len(selected) < k and remaining: ...]; [fuel] bounds the number
    of iterations. *)
Fixpoint mmr_loop (fuel : nat) (lambda_param : Q) (k : Z) (selected remaining : list nat)
  : result (list nat) :=
  if (Z.of_nat (length selected) <? k) && negb (Nat.eqb (length remaining) 0) then
    match fuel with
    | O => Raise LoopBudget
    | S fuel' =>
        match snd (scan_best lambda_param (length selected) remaining None None) with
        | Some best_idx =>
            let* remaining' := Py.remove best_idx remaining in
            mmr_loop fuel' lambda_param k (selected ++ [best_idx]) remaining'
        | None => mmr_loop fuel' lambda_param k selected remaining
        end
    end
  else Ok selected.

(** [[candidates[i] for i in selected]] *)
Fixpoint pick (candidates : list ProductMetadata) (selected : list nat)
  : result (list ProductMetadata) :=
  match selected with
  | [] => Ok []
  | i :: rest =>
      let* c := Py.index candidates i in
      let* cs := pick candidates rest in
      Ok (c :: cs)
  end.

Definition _maximal_marginal_relevance (candidates : list ProductMetadata)
  (query : string) (k : Z) (lambda_param : Q) : result (list ProductMetadata) :=
  if Z.of_nat (length candidates) <=? k then Ok candidates
  else
    let remaining := Py.range (length candidates) in
    let selected := [] ++ [0%nat] in
    let* remaining := Py.remove 0 remaining in
    let* selected := mmr_loop (length candidates) lambda_param k selected remaining in
    pick candidates selected.

End Mock.

(** ** The server: [retrieval.py], [cache.py], [models.py], [main.py] *)

Module Server.

(** [models.ProductMetadata] *)
Record ProductMetadata : Type := mkProduct {
  uniq_id : string;
  title : string;
  brand : string;
  description : string;
  price : Q;
  categories : string;
  image_url : string;
  material : option string;
  color : option string;
  dimensions : option string
}.

(** [models.RecommendRequest], after validation *)
Record RecommendRequest : Type := mkRequest {
  query : string;
  k : Z;
  page : Z;
  size : Z;
  filters : list (string * string);
  user_image_url : option string;
  include_description : bool;
  include_reason : bool
}.

(** [retrieval.SearchResult] *)
Record SearchResult : Type := mkSearchResult {
  products : list ProductMetadata;
  total_found : Z;
  total_pages : Z;
  search_time_ms : Q;
  reasons : list string
}.

(** [models.RecommendResponse] *)
Record RecommendResponse : Type := mkResponse {
  resp_products : list ProductMetadata;
  resp_total_found : Z;
  resp_total_pages : Z;
  resp_search_time_ms : Q;
  resp_reasons : list string;
  resp_descriptions : list string;
  resp_query : string
}.

(** *** [retrieval.VectorStore] *)

Record VectorStore : Type := mkVectorStore {
  initialized : bool;
  faiss_metadata : list ProductMetadata
}.

Definition _load_demo_products : list ProductMetadata :=
  [ mkProduct "demo-1" "Modern Office Chair" "ErgoSeat"
      "Comfortable ergonomic office chair" (29999 # 100) "office furniture"
      "https://example.com/chair1.jpg" (Some "mesh") (Some "black") None;
    mkProduct "demo-2" "Wooden Dining Table" "OakCraft"
      "Solid oak dining table" (89999 # 100) "dining furniture"
      "https://example.com/table1.jpg" (Some "oak") (Some "natural") None ].

(** The condition of the [if] inside [for product in self.faiss_metadata] *)
Definition matches (query_lower : string) (product : ProductMetadata) : bool :=
  Py.contains query_lower (Py.lower (title product))
  || Py.contains query_lower (Py.lower (brand product))
  || Py.contains query_lower (Py.lower (categories product))
  || Py.contains query_lower (Py.lower (description product)).

(** The [# Pagination] block of [search]:
    [(filtered_products[start_idx:end_idx], len(filtered_products), total_pages)] *)
Definition paginate (filtered_products : list ProductMetadata) (page size : Z)
  : result (list ProductMetadata * Z * Z) :=
  let start_idx := (page - 1) * size in
  let end_idx := start_idx + size in
  let products := Py.slice filtered_products start_idx end_idx in
  let* total_pages := Py.floordiv (Z.of_nat (length filtered_products) + size - 1) size in
  Ok (products, Z.of_nat (length filtered_products), total_pages).

(** The list paginated by [search]: the matches, or everything when
    nothing matches. *)
Definition select_products (self : VectorStore) (query : string) : list ProductMetadata :=
  let query_lower := Py.lower query in
  let filtered_products := List.filter (matches query_lower) (faiss_metadata self) in
  match filtered_products with
  | [] => faiss_metadata self
  | _ :: _ => filtered_products
  end.

Definition search (self : VectorStore) (query : string) (k page size : Z)
  (filters : list (string * string)) (user_image_url : option string)
  : result SearchResult :=
  let filtered_products := select_products self query in
  let* paged := paginate filtered_products page size in
  Ok {| products := paged.1.1;
        total_found := paged.1.2;
        total_pages := paged.2;
        search_time_ms := 50;
        reasons := [ "Found " +:+ Py.str_of_nat (length filtered_products)
                     +:+ " products matching '" +:+ query +:+ "'" ] |}.

(** *** [cache.QueryCache] *)

Module QueryCache.
Record t (V : Type) : Type := mk { cache : gmap string V }.
Arguments mk {V} cache.
Arguments cache {V} _.

(** [__init__] *)
Definition init {V} : t V := mk ∅.

Definition get {V} (self : t V) (key : string) : option V :=
  cache self !! key.

Definition set {V} (self : t V) (key : string) (value : V) : t V :=
  mk (<[key := value]> (cache self)).
End QueryCache.

(** *** [genai.GenerativeAI.generate_description] *)
Definition generate_description (product : ProductMetadata) : string :=
  "Discover the " +:+ title product +:+ " by " +:+ brand product +:+ ". "
  +:+ description product.

(** *** [main.py] *)

(** What [recommend_furniture] reads and writes: the keys of the [services]
    registry (its values are the singletons below), the singletons
    [vector_store], [genai] and [query_cache] imported by [main.py], and,
    as ghost state, the log of the calls made to [vector_store.search]. *)
Record App : Type := mkApp {
  services : gset string;
  vector_store : VectorStore;
  genai_initialized : bool;
  query_cache : QueryCache.t RecommendResponse;
  search_calls : list (string * Z * Z)
}.

(** [services.get(name, {}).initialized]: a missing entry gives [{}],
    which has no attribute [initialized]. *)
Definition service_initialized (app : App) (name : string) (flag : bool) : result bool :=
  if bool_decide (name ∈ services app) then Ok flag else Raise AttributeError.

(** [RecommendResponse(...)] with its [ge=0] field constraints *)
Definition make_response (results : SearchResult) (descriptions : list string)
  (query : string) : result RecommendResponse :=
  if (0 <=? total_found results) && (0 <=? total_pages results)
     && Qle_bool 0 (search_time_ms results)
  then Ok {| resp_products := products results;
             resp_total_found := total_found results;
             resp_total_pages := total_pages results;
             resp_search_time_ms := search_time_ms results;
             resp_reasons := reasons results;
             resp_descriptions := descriptions;
             resp_query := query |}
  else Raise ValidationError.

(** The body of the [try] block *)
Definition recommend_try (request : RecommendRequest) (app : App)
  : App * result RecommendResponse :=
  match service_initialized app "vector_store" (initialized (vector_store app)) with
  | Raise e => (app, Raise e)
  | Ok false => (app, Raise (HTTPException 503 (Text "Vector store not available")))
  | Ok true =>
      let app' :=
        {| services := services app;
           vector_store := vector_store app;
           genai_initialized := genai_initialized app;
           query_cache := query_cache app;
           search_calls := search_calls app
                           ++ [(query request, page request, size request)] |} in
      (app',
       let* results := search (vector_store app) (query request) (k request)
                         (page request) (size request) (filters request)
                         (user_image_url request) in
       let* describe :=
         if include_description request
         then service_initialized app "genai" (genai_initialized app)
         else Ok false in
       let descriptions :=
         if describe then map generate_description (products results) else [] in
       make_response results descriptions (query request))
  end.

(** [except Exception as e: raise HTTPException(status_code=500, detail=str(e))] *)
Definition recommend_furniture (request : RecommendRequest) (app : App)
  : App * result RecommendResponse :=
  let (app', r) := recommend_try request app in
  match r with
  | Ok response => (app', Ok response)
  | Raise e => (app', Raise (HTTPException 500 (StrOf e)))
  end.

(** *** Request validation
    The body of [POST /api/recommend] before validation: every field that
    has a default may be absent. *)
Record RawRequest : Type := mkRaw {
  raw_query : option string;
  raw_k : option Z;
  raw_page : option Z;
  raw_size : option Z;
  raw_filters : option (list (string * string));
  raw_user_image_url : option string;
  raw_include_description : option bool;
  raw_include_reason : option bool
}.

(** The [Field(...)] constraints of [RecommendRequest] *)
Definition validate_request (raw : RawRequest) : result RecommendRequest :=
  match raw_query raw with
  | None => Raise ValidationError
  | Some q =>
      let k := default 10 (raw_k raw) in
      let page := default 1 (raw_page raw) in
      let size := default 8 (raw_size raw) in
      if (1 <=? String.length q)%nat && (String.length q <=? 500)%nat
         && (1 <=? k) && (k <=? 50)
         && (1 <=? page)
         && (1 <=? size) && (size <=? 20)
      then Ok {| query := q; k := k; page := page; size := size;
                 filters := default [] (raw_filters raw);
                 user_image_url := raw_user_image_url raw;
                 include_description := default true (raw_include_description raw);
                 include_reason := default true (raw_include_reason raw) |}
      else Raise ValidationError
  end.

(** [@app.post("/api/recommend")]: the framework builds the
    [RecommendRequest] from the body and calls the handler only when the
    model validates. *)
Definition post_api_recommend (raw : RawRequest) (app : App)
  : App * result RecommendResponse :=
  match validate_request raw with
  | Raise e => (app, Raise e)
  | Ok request => recommend_furniture request app
  end.

(** *** Fixtures used in the examples below *)

(** The process after [lifespan] started it on the demo catalogue *)
Definition demo_app : App :=
  {| services := {[ "vector_store"; "genai"; "cv_classifier"; "analytics" ]};
     vector_store := mkVectorStore true _load_demo_products;
     genai_initialized := true;
     query_cache := QueryCache.init;
     search_calls := [] |}.

Definition chair_request : RecommendRequest :=
  {| query := "chair"; k := 10; page := 1; size := 8; filters := [];
     user_image_url := None; include_description := true; include_reason := true |}.

(** [app] with another content of [query_cache] *)
Definition with_cache (app : App) (c : QueryCache.t RecommendResponse) : App :=
  {| services := services app;
     vector_store := vector_store app;
     genai_initialized := genai_initialized app;
     query_cache := c;
     search_calls := search_calls app |}.

End Server.

(** ** Vocabulary of the specification *)

Module Spec.
Import Mock.

(** The categories a list of candidates spans, as the tests collect them:
    [categories = set(); categories.update(result.categories)] *)
Definition spanned_categories (cs : list ProductMetadata) : gset string :=
  list_to_set (concat (map categories cs)).

(** Category overlap, the specification's default similarity: 1 when two
    candidates share a category, 0 otherwise. *)
Definition category_overlap (a b : ProductMetadata) : Q :=
  if existsb (fun c => existsb (String.eqb c) (categories b)) (categories a)
  then 1%Q else 0%Q.

(** The highest similarity between a candidate and a selected one (0 for
    an empty selection) *)
Definition max_similarity (c : ProductMetadata) (selected : list ProductMetadata) : Q :=
  foldr (fun s acc => if Qle_bool acc (category_overlap c s)
                      then category_overlap c s else acc) 0%Q selected.

(** The marginal-relevance score in the specification's words:
    [lambda * relevance(candidate) - (1 - lambda) * max_similarity(candidate, selected)] *)
Definition spec_mmr_score (lambda_param relevance : Q) (c : ProductMetadata)
  (selected : list ProductMetadata) : Q :=
  (lambda_param * relevance - (1 - lambda_param) * max_similarity c selected)%Q.

(** The 0-indexed rank of an identifier in a channel's list *)
Fixpoint rank_of (id : string) (cs : list ProductMetadata) : option nat :=
  match cs with
  | [] => None
  | c :: cs' =>
      if String.eqb (uniq_id c) id then Some 0%nat
      else option_map S (rank_of id cs')
  end.

(** Where a candidate is discovered: the index of the first channel that
    lists it (text is 0, image is 1) and its rank there *)
Definition discovery (text image : list ProductMetadata) (id : string)
  : option (nat * nat) :=
  match rank_of id text with
  | Some r => Some (0%nat, r)
  | None =>
      match rank_of id image with
      | Some r => Some (1%nat, r)
      | None => None
      end
  end.

(** Earlier channel first, then lower rank *)
Definition discovered_before (a b : option (nat * nat)) : Prop :=
  match a, b with
  | Some (ca, ra), Some (cb, rb) => (ca < cb)%nat \/ (ca = cb /\ (ra < rb)%nat)
  | _, _ => False
  end.

(** The identifiers of a channel's list, in rank order *)
Definition ids (cs : list ProductMetadata) : list string := map uniq_id cs.

(** The score table of a duplicate-free channel whose first candidate has
    rank [i]: identifier and [1/(rank+1)], in rank order *)
Fixpoint scored {fl : PyFloat} (i : nat) (cs : list ProductMetadata)
  : list (string * pyfloat) :=
  match cs with
  | [] => []
  | c :: cs' => (uniq_id c, reciprocal_rank i) :: scored (S i) cs'
  end.

(** The candidates of a channel keyed by identifier *)
Definition by_id (cs : list ProductMetadata) : list (string * ProductMetadata) :=
  map (fun c => (uniq_id c, c)) cs.

(** [id in l] *)
Definition elem (id : string) (l : list string) : bool := existsb (String.eqb id) l.

(** The combined score of an identifier: the sum of its per-channel
    reciprocal-rank scores, computed in the arithmetic of the scores; the
    one term when one channel lists it, none when neither does *)
Definition combined_score {fl : PyFloat} (text image : list ProductMetadata)
  (id : string) : option pyfloat :=
  match rank_of id text, rank_of id image with
  | Some rt, Some ri => Some (f_add (reciprocal_rank rt) (reciprocal_rank ri))
  | Some rt, None => Some (reciprocal_rank rt)
  | None, Some ri => Some (reciprocal_rank ri)
  | None, None => None
  end.

(** Among [candidates] there is an alternative to a candidate of
    [selected]: one of the same relevance with a category that [selected]
    does not span. *)
Definition same_relevance_alternative {S : Type} (relevance : ProductMetadata -> S)
  (selected candidates : list ProductMetadata) : Prop :=
  exists b c,
    In b selected /\ In c candidates /\ relevance b = relevance c
    /\ exists category,
         In category (categories c) /\ category ∉ spanned_categories selected.

(** [x] occurs in [l] before a later occurrence of [y] *)
Fixpoint precedes {A} (l : list A) (x y : A) : Prop :=
  match l with
  | [] => False
  | z :: l' => (z = x /\ In y l') \/ precedes l' x y
  end.

(** Fixtures of [test_mmr_diversity_properties] *)
Definition chair_A : ProductMetadata := mkProduct "A" "Chair A" "Description A" 100 ["Chair"] "".
Definition chair_B : ProductMetadata := mkProduct "B" "Chair B" "Description B" 150 ["Chair"] "".
Definition table_C : ProductMetadata := mkProduct "C" "Table A" "Description C" 200 ["Table"] "".
Definition table_D : ProductMetadata := mkProduct "D" "Table B" "Description D" 250 ["Table"] "".

End Spec.

(** ** [scripts/fetch_data.py] *)

Module FetchData.

(** [s[n:]] for [n >= 0] *)
Fixpoint str_drop (n : nat) (s : string) : string :=
  match n, s with
  | O, _ => s
  | S _, EmptyString => EmptyString
  | S n', String _ s' => str_drop n' s'
  end.

(** The lowest position of [sub] in [s], positions counted from [i] *)
Fixpoint find_from (sub s : string) (i : nat) : option nat :=
  if String.prefix sub s then Some i
  else match s with
       | EmptyString => None
       | String _ s' => find_from sub s' (S i)
       end.

(** [s.find(sub, start)]: the lowest index at or after [start] where [sub]
    occurs, [-1] when there is none; [start] is clipped like a slice bound
    and a [start] past the end finds nothing. *)
Definition find (s sub : string) (start : Z) : Z :=
  let n := String.length s in
  if Z.of_nat n <? start then -1
  else
    let lo := Py.slice_bound n start in
    match find_from sub (str_drop lo s) lo with
    | Some i => Z.of_nat i
    | None => -1
    end.

(** [s[a:b]] on strings *)
Definition str_slice (s : string) (a b : Z) : string :=
  let n := String.length s in
  let lo := Py.slice_bound n a in
  let hi := Py.slice_bound n b in
  String.substring lo (hi - lo) s.

Definition extract_file_id_from_url (url : string) : result string :=
  if Py.contains "/file/d/" url then
    let start := find url "/file/d/" 0 + 8 in
    let end_ := find url "/" start in
    let end_ := if end_ =? -1 then find url "?" start else end_ in
    let end_ := if end_ =? -1 then Z.of_nat (String.length url) else end_ in
    Ok (str_slice url start end_)
  else if Py.contains "id=" url then
    let start := find url "id=" 0 + 3 in
    let end_ := find url "&" start in
    let end_ := if end_ =? -1 then Z.of_nat (String.length url) else end_ in
    Ok (str_slice url start end_)
  else Raise ValueError.

Section ChooseCsv.
(** [pd.read_csv(csv_path, nrows=5).columns], or the exception reading the
    file raises: the file system is outside the program. *)
Variable read_columns : string -> result (list string).

Definition furniture_keywords : list string :=
  ["title"; "description"; "categories"; "brand"; "name"; "product"].

(** [sum(1 for keyword in furniture_keywords if any(keyword in col for col in columns))] *)
Definition score_columns (df_columns : list string) : Z :=
  let columns := map Py.lower df_columns in
  Z.of_nat (length (List.filter (fun keyword => existsb (Py.contains keyword) columns)
                      furniture_keywords)).

Definition score_csv_for_furniture (csv_path : string) : Z :=
  match read_columns csv_path with
  | Ok df_columns => score_columns df_columns
  | Raise _ => 0
  end.

Definition choose_best_csv (csv_files : list string) : result string :=
  match csv_files with
  | [] => Raise ValueError
  | [csv] => Ok csv
  | _ =>
      let scored_csvs := map (fun csv => (csv, score_csv_for_furniture csv)) csv_files in
      let scored_csvs := Py.sorted_desc (fun x => inject_Z (snd x)) scored_csvs in
      let* best := Py.index scored_csvs 0 in
      Ok (fst best)
  end.
End ChooseCsv.

End FetchData.

(** ** Start-up and health: [main.lifespan], [main.health_check],
       [VectorStore.initialize] *)

Module Lifecycle.
Import Server.

(** [models.ServiceHealthStatus] *)
Inductive ServiceHealthStatus : Type := HEALTHY | DEGRADED | UNHEALTHY.

(** [models.HealthResponse] *)
Record HealthResponse : Type := mkHealth {
  status : ServiceHealthStatus;
  health_services : Py.dict string;
  version : string
}.

(** The process with the two singletons [recommend_furniture] does not
    touch: [cv_classifier] and [analytics] *)
Record Process : Type := mkProcess {
  app : App;
  cv_initialized : bool;
  analytics_initialized : bool
}.

(** ["healthy" if ... .initialized else "unhealthy"] *)
Definition service_status (flag : bool) : string :=
  if flag then "healthy" else "unhealthy".

(** The four status lines of the [try] block of [health_check] *)
Definition service_statuses (p : Process) : result (string * string * string * string) :=
  let* vector_store_status :=
    service_initialized (app p) "vector_store" (initialized (vector_store (app p))) in
  let* genai_status :=
    service_initialized (app p) "genai" (genai_initialized (app p)) in
  let* cv_status :=
    service_initialized (app p) "cv_classifier" (cv_initialized p) in
  let* analytics_status :=
    service_initialized (app p) "analytics" (analytics_initialized p) in
  Ok (service_status vector_store_status, service_status genai_status,
      service_status cv_status, service_status analytics_status).

Definition health_check (p : Process) : HealthResponse :=
  match service_statuses p with
  | Ok (vector_store_status, genai_status, cv_status, analytics_status) =>
      let overall_status :=
        if String.eqb vector_store_status "healthy"
           && String.eqb genai_status "healthy"
           && String.eqb cv_status "healthy"
           && String.eqb analytics_status "healthy"
        then HEALTHY else DEGRADED in
      {| status := overall_status;
         health_services := [("vector_store", vector_store_status);
                             ("generative_ai", genai_status);
                             ("computer_vision", cv_status);
                             ("analytics", analytics_status)];
         version := "1.0.0" |}
  | Raise _ =>
      {| status := UNHEALTHY; health_services := []; version := "1.0.0" |}
  end.

(** [VectorStore.initialize]; [real] is what [_load_real_products]
    returned or raised (it reads the CSV file). *)
Definition initialize (self : VectorStore) (real : result (list ProductMetadata))
  : VectorStore :=
  {| initialized := true;
     faiss_metadata := match real with
                       | Ok products => products
                       | Raise _ => _load_demo_products
                       end |}.

(** The start-up half of [lifespan]: the four services are initialised and
    registered in turn.  None of the four [initialize] methods can raise,
    so the [except] branch is never taken. *)
Definition lifespan_startup (p : Process) (real : result (list ProductMetadata))
  : Process :=
  {| app := {| services := {[ "vector_store"; "genai"; "cv_classifier"; "analytics" ]}
                           ∪ services (app p);
               vector_store := initialize (vector_store (app p)) real;
               genai_initialized := true;
               query_cache := query_cache (app p);
               search_calls := search_calls (app p) |};
     cv_initialized := true;
     analytics_initialized := true |}.

(** The process when the modules are imported, before [lifespan] runs *)
Definition fresh_process : Process :=
  {| app := {| services := ∅;
               vector_store := mkVectorStore false [];
               genai_initialized := false;
               query_cache := QueryCache.init;
               search_calls := [] |};
     cv_initialized := false;
     analytics_initialized := false |}.

(** The products of one page, nothing when pagination raises *)
Definition page_products (l : list ProductMetadata) (page size : Z)
  : list ProductMetadata :=
  match paginate l page size with
  | Ok paged => paged.1.1
  | Raise _ => []
  end.

End Lifecycle.

(** ** Further vocabulary *)

Module Spec2.
Import Mock.

(** The 0-indexed rank of the last occurrence of an identifier *)
Fixpoint last_rank (id : string) (cs : list ProductMetadata) : option nat :=
  match cs with
  | [] => None
  | c :: cs' =>
      match last_rank id cs' with
      | Some r => Some (S r)
      | None => if String.eqb (uniq_id c) id then Some 0%nat else None
      end
  end.

End Spec2.

(** * Properties *)

(** ** Pagination *)

Module PaginationFacts.
Import Server.

Lemma slice_bound_nonneg (n : nat) (i : Z) :
  0 <= i -> Py.slice_bound n i = Nat.min (Z.to_nat i) n.
Proof.
  intros Hi. unfold Py.slice_bound.
  destruct (Z.ltb_spec i 0); [lia | reflexivity].
Qed.

Lemma slice_nonneg {A} (l : list A) (a b : Z) :
  0 <= a -> a <= b ->
  Py.slice l a b = firstn (Z.to_nat (b - a)) (skipn (Z.to_nat a) l).
Proof.
  intros Ha Hb. unfold Py.slice.
  rewrite !slice_bound_nonneg by lia.
  destruct (Nat.le_gt_cases (length l) (Z.to_nat a)) as [Hge | Hlt].
  - rewrite Nat.min_r by lia.
    rewrite !skipn_all2 by lia. now rewrite !firstn_nil.
  - rewrite (Nat.min_l (Z.to_nat a)) by lia.
    destruct (Nat.le_gt_cases (Z.to_nat b) (length l)) as [Hb' | Hb'].
    + rewrite Nat.min_l by lia. f_equal. lia.
    + rewrite Nat.min_r by lia.
      assert (Hlen : length (skipn (Z.to_nat a) l) = (length l - Z.to_nat a)%nat)
        by apply length_skipn.
      rewrite firstn_all2 by lia.
      rewrite firstn_all2 by lia. reflexivity.
Qed.

Lemma slice_past_end {A} (l : list A) (a b : Z) :
  Z.of_nat (length l) <= a -> Py.slice l a b = [].
Proof.
  intros Ha. unfold Py.slice.
  rewrite (slice_bound_nonneg _ a) by lia.
  rewrite Nat.min_r by lia.
  rewrite skipn_all2 by lia. apply firstn_nil.
Qed.

Lemma slice_to_zero {A} (l : list A) (a : Z) : Py.slice l a 0 = [].
Proof.
  unfold Py.slice. rewrite (slice_bound_nonneg (length l) 0) by lia.
  reflexivity.
Qed.

Lemma total_pages_ceil (n size : Z) :
  0 <= n -> 1 <= size ->
  let tp := (n + size - 1) / size in
  (tp - 1) * size < n <= tp * size /\ (n = 0 -> tp = 0).
Proof.
  intros Hn Hs tp.
  pose proof (Z.div_mod (n + size - 1) size ltac:(lia)) as Hdm.
  pose proof (Z.mod_pos_bound (n + size - 1) size ltac:(lia)) as Hmod.
  fold tp in Hdm. split; [nia |].
  intros ->. subst tp. apply Z.div_small. lia.
Qed.

(** C6 (as amended).  For every list, every page and every [size >= 1],
    pagination does not raise: it returns the Python slice
    [list[(page-1)*size : page*size]], [total_found = len(list)] and
    [total_pages = ceil(total_found / size)], which is 0 for the empty
    list.  A page beyond [total_pages], and page 0, give the empty slice;
    a page [>= 1] gives the [size] elements that follow the first
    [(page-1)*size]. *)
Theorem paginate_spec (l : list ProductMetadata) (page size : Z) :
  1 <= size ->
  exists total_pages,
    paginate l page size
    = Ok (Py.slice l ((page - 1) * size) (page * size), Z.of_nat (length l), total_pages)
    /\ (total_pages - 1) * size < Z.of_nat (length l) <= total_pages * size
    /\ (length l = 0%nat -> total_pages = 0)
    /\ (total_pages < page -> Py.slice l ((page - 1) * size) (page * size) = [])
    /\ (page = 0 -> Py.slice l ((page - 1) * size) (page * size) = [])
    /\ (1 <= page ->
        Py.slice l ((page - 1) * size) (page * size)
        = firstn (Z.to_nat size) (skipn (Z.to_nat ((page - 1) * size)) l)).
Proof.
  intros Hs.
  exists ((Z.of_nat (length l) + size - 1) / size).
  destruct (total_pages_ceil (Z.of_nat (length l)) size ltac:(lia) Hs) as [Hceil Hzero].
  split; [| split; [exact Hceil | split; [| split; [| split]]]].
  - unfold paginate, Py.floordiv.
    destruct (Z.eqb_spec size 0); [lia |]. simpl.
    replace ((page - 1) * size + size) with (page * size) by ring.
    reflexivity.
  - intros Hl. apply Hzero. lia.
  - intros Hp. apply slice_past_end. nia.
  - intros ->. apply slice_to_zero.
  - intros Hp. rewrite slice_nonneg by nia.
    f_equal. f_equal. ring.
Qed.

Lemma paginate_spec_witness :
  1 <= 8 /\
  exists total_pages,
    paginate _load_demo_products 2 8
    = Ok (Py.slice _load_demo_products ((2 - 1) * 8) (2 * 8),
          Z.of_nat (length _load_demo_products), total_pages)
    /\ (total_pages - 1) * 8 < Z.of_nat (length _load_demo_products) <= total_pages * 8
    /\ (length _load_demo_products = 0%nat -> total_pages = 0)
    /\ (total_pages < 2 -> Py.slice _load_demo_products ((2 - 1) * 8) (2 * 8) = [])
    /\ (2 = 0 -> Py.slice _load_demo_products ((2 - 1) * 8) (2 * 8) = [])
    /\ (1 <= 2 ->
        Py.slice _load_demo_products ((2 - 1) * 8) (2 * 8)
        = firstn (Z.to_nat 8) (skipn (Z.to_nat ((2 - 1) * 8)) _load_demo_products)).
Proof.
  split; [lia | apply (paginate_spec _load_demo_products 2 8); lia].
Defined.

(** C6, counterexample.  Page [-1] is below 1, yet with two products and
    [size = 1] the slice [list[-2:-1]] holds the first product. *)
Lemma paginate_negative_page_not_empty :
  -1 < 1 /\ 1 <= 1 /\
  paginate _load_demo_products (-1) 1 = Ok (firstn 1 _load_demo_products, 2, 2) /\
  firstn 1 _load_demo_products <> [].
Proof.
  split; [lia | split; [lia | split]].
  - reflexivity.
  - discriminate.
Qed.

(** A list of 25 products, page 4, size 8: one product (the last)
    and 4 pages in all. *)
Theorem paginate_25_page_4 (l : list ProductMetadata) :
  length l = 25%nat ->
  exists last, paginate l 4 8 = Ok ([last], 25, 4) /\ nth_error l 24 = Some last.
Proof.
  intros H.
  do 25 (destruct l as [| ? l]; [discriminate |]).
  destruct l; [| discriminate].
  eexists. split; reflexivity.
Qed.

Lemma paginate_25_page_4_witness :
  let l := repeat (hd (mkProduct "" "" "" "" 0 "" "" None None None) _load_demo_products) 25 in
  length l = 25%nat /\
  exists last, paginate l 4 8 = Ok ([last], 25, 4) /\ nth_error l 24 = Some last.
Proof.
  split; [reflexivity |].
  exact (paginate_25_page_4
           (repeat (hd (mkProduct "" "" "" "" 0 "" "" None None None) _load_demo_products) 25)
           eq_refl).
Defined.

End PaginationFacts.

(** ** Search *)

Module SearchFacts.
Import Server.

Lemma filter_none {A} (f : A -> bool) (l : list A) :
  (forall x, In x l -> f x = false) -> List.filter f l = [].
Proof.
  induction l as [| x l IH]; intros H; simpl; [reflexivity |].
  rewrite (H x) by (left; reflexivity).
  apply IH. intros y Hy. apply H. right. exact Hy.
Qed.

Lemma select_products_no_match (self : VectorStore) (query : string) :
  (forall p, In p (faiss_metadata self) -> matches (Py.lower query) p = false) ->
  select_products self query = faiss_metadata self.
Proof.
  intros H. unfold select_products. now rewrite filter_none.
Qed.

(** C9 (as amended).  When the lowercased query is a substring of none of
    the lowercased title, brand, categories and description of any loaded
    product, [search] (with a page size other than 0) paginates the whole
    catalogue: [total_found] is the number of loaded products and the
    products are the requested slice of the catalogue. *)
Theorem search_no_match_returns_catalog (self : VectorStore) (query : string)
  (k page size : Z) (filters : list (string * string)) (user_image_url : option string) :
  (forall p, In p (faiss_metadata self) ->
     Py.contains (Py.lower query) (Py.lower (title p)) = false /\
     Py.contains (Py.lower query) (Py.lower (brand p)) = false /\
     Py.contains (Py.lower query) (Py.lower (categories p)) = false /\
     Py.contains (Py.lower query) (Py.lower (description p)) = false) ->
  size <> 0 ->
  exists r,
    search self query k page size filters user_image_url = Ok r
    /\ total_found r = Z.of_nat (length (faiss_metadata self))
    /\ products r
       = Py.slice (faiss_metadata self) ((page - 1) * size) ((page - 1) * size + size).
Proof.
  intros Hno Hsize.
  unfold search. rewrite select_products_no_match.
  - unfold paginate, Py.floordiv.
    destruct (Z.eqb_spec size 0); [contradiction |].
    simpl. eexists. split; [reflexivity |]. simpl. split; reflexivity.
  - intros p Hp. destruct (Hno p Hp) as (H1 & H2 & H3 & H4).
    unfold matches. now rewrite H1, H2, H3, H4.
Qed.

Lemma search_no_match_returns_catalog_witness :
  (forall p, In p _load_demo_products ->
     Py.contains (Py.lower "Sofa") (Py.lower (title p)) = false /\
     Py.contains (Py.lower "Sofa") (Py.lower (brand p)) = false /\
     Py.contains (Py.lower "Sofa") (Py.lower (categories p)) = false /\
     Py.contains (Py.lower "Sofa") (Py.lower (description p)) = false) /\
  8 <> 0 /\
  exists r,
    search (mkVectorStore true _load_demo_products) "Sofa" 10 1 8 [] None = Ok r
    /\ total_found r = Z.of_nat (length _load_demo_products)
    /\ products r = Py.slice _load_demo_products ((1 - 1) * 8) ((1 - 1) * 8 + 8).
Proof.
  assert (H : forall p, In p _load_demo_products ->
     Py.contains (Py.lower "Sofa") (Py.lower (title p)) = false /\
     Py.contains (Py.lower "Sofa") (Py.lower (brand p)) = false /\
     Py.contains (Py.lower "Sofa") (Py.lower (categories p)) = false /\
     Py.contains (Py.lower "Sofa") (Py.lower (description p)) = false).
  { intros p [<- | [<- | []]]; repeat split; reflexivity. }
  split; [exact H | split; [lia |]].
  exact (search_no_match_returns_catalog (mkVectorStore true _load_demo_products)
           "Sofa" 10 1 8 [] None H ltac:(lia)).
Defined.

(** C9, counterexample.  On the demo catalogue the lowercased query
    [modern] is a substring of no title, brand, categories or description
    as stored (the title reads [Modern Office Chair]), yet [search] compares
    with the lowercased fields, finds the chair and reports one product
    found, not the two that are loaded. *)
Lemma search_lowercases_the_fields :
  Forall (fun p =>
            Py.contains (Py.lower "modern") (title p) = false /\
            Py.contains (Py.lower "modern") (brand p) = false /\
            Py.contains (Py.lower "modern") (categories p) = false /\
            Py.contains (Py.lower "modern") (description p) = false)
         _load_demo_products /\
  length _load_demo_products = 2%nat /\
  exists r,
    search (mkVectorStore true _load_demo_products) "modern" 10 1 8 [] None = Ok r
    /\ total_found r = 1
    /\ map uniq_id (products r) = ["demo-1"].
Proof.
  split; [| split; [reflexivity |]].
  - repeat constructor.
  - eexists. split; [reflexivity |]. split; reflexivity.
Qed.

End SearchFacts.

(** ** The recommend endpoint *)

Module RecommendFacts.
Import Server.

Lemma validate_empty_query (raw : RawRequest) :
  raw_query raw = Some "" -> validate_request raw = Raise ValidationError.
Proof. intros H. unfold validate_request. rewrite H. reflexivity. Qed.

Lemma validate_bad_page (raw : RawRequest) (p : Z) :
  raw_page raw = Some p -> p < 1 -> validate_request raw = Raise ValidationError.
Proof.
  intros H Hp. unfold validate_request. rewrite H.
  destruct (raw_query raw); [| reflexivity]. simpl.
  destruct (Z.leb_spec 1 p); [lia |].
  rewrite !andb_false_r. reflexivity.
Qed.

Lemma validate_bad_size (raw : RawRequest) (s : Z) :
  raw_size raw = Some s -> s < 1 \/ 20 < s ->
  validate_request raw = Raise ValidationError.
Proof.
  intros H Hs. unfold validate_request. rewrite H.
  destruct (raw_query raw); [| reflexivity]. simpl.
  destruct (Z.leb_spec 1 s), (Z.leb_spec s 20); try lia;
    rewrite ?andb_false_r; reflexivity.
Qed.

(** C7.  A request with an empty query, a page below 1 or a size outside
    [1 .. 20] is answered with a validation error; the handler is not
    entered, so the process state, with its log of searches, is the one
    before the request: no stage of the pipeline ran and nothing is
    retried. *)
Theorem invalid_request_rejected_before_pipeline (raw : RawRequest) (app : App) :
  raw_query raw = Some ""
  \/ (exists p, raw_page raw = Some p /\ p < 1)
  \/ (exists s, raw_size raw = Some s /\ (s < 1 \/ 20 < s)) ->
  post_api_recommend raw app = (app, Raise ValidationError).
Proof.
  intros H. unfold post_api_recommend.
  assert (Hv : validate_request raw = Raise ValidationError).
  { destruct H as [Hq | [(p & Hp & Hlt) | (s & Hs & Hout)]].
    - now apply validate_empty_query.
    - now apply (validate_bad_page raw p).
    - now apply (validate_bad_size raw s). }
  now rewrite Hv.
Qed.

Lemma invalid_request_rejected_before_pipeline_witness :
  let raw := mkRaw (Some "sofa") None (Some 0) None None None None None in
  (raw_query raw = Some ""
   \/ (exists p, raw_page raw = Some p /\ p < 1)
   \/ (exists s, raw_size raw = Some s /\ (s < 1 \/ 20 < s)))
  /\ post_api_recommend raw demo_app = (demo_app, Raise ValidationError).
Proof.
  assert (H : let raw := mkRaw (Some "sofa") None (Some 0) None None None None None in
              raw_query raw = Some ""
              \/ (exists p, raw_page raw = Some p /\ p < 1)
              \/ (exists s, raw_size raw = Some s /\ (s < 1 \/ 20 < s))).
  { right. left. exists 0. split; [reflexivity | lia]. }
  split; [exact H |].
  exact (invalid_request_rejected_before_pipeline _ demo_app H).
Defined.

Lemma recommend_try_cache (request : RecommendRequest) (app : App) :
  query_cache (recommend_try request app).1 = query_cache app.
Proof.
  unfold recommend_try.
  destruct (service_initialized _ _ _) as [[|] | e]; reflexivity.
Qed.

Lemma recommend_try_with_cache (request : RecommendRequest) (app : App)
  (c : QueryCache.t RecommendResponse) :
  (recommend_try request (with_cache app c)).2 = (recommend_try request app).2.
Proof.
  unfold recommend_try, service_initialized, with_cache. simpl.
  destruct (bool_decide _); [| reflexivity].
  destruct (initialized _); reflexivity.
Qed.

(** C5 (as amended).  [recommend_furniture] neither reads nor writes the
    query cache: the cache after a request is the cache before it, the
    answer is the same whatever the cache holds, and whenever the vector
    store is registered and initialised the request, repeated or not, runs
    [vector_store.search] once more. *)
Theorem recommend_ignores_cache (request : RecommendRequest) (app : App) :
  query_cache (recommend_furniture request app).1 = query_cache app
  /\ (forall c, (recommend_furniture request (with_cache app c)).2
                = (recommend_furniture request app).2)
  /\ ("vector_store" ∈ services app -> initialized (vector_store app) = true ->
      search_calls (recommend_furniture request app).1
      = search_calls app ++ [(query request, page request, size request)]).
Proof.
  split; [| split].
  - pose proof (recommend_try_cache request app) as H.
    unfold recommend_furniture.
    destruct (recommend_try request app) as [app' [r | e]]; exact H.
  - intros c. pose proof (recommend_try_with_cache request app c) as H.
    unfold recommend_furniture.
    destruct (recommend_try request (with_cache app c)) as [a1 r1].
    destruct (recommend_try request app) as [a2 r2].
    simpl in H. subst r2. destruct r1; reflexivity.
  - intros Hin Hinit.
    unfold recommend_furniture, recommend_try, service_initialized.
    rewrite bool_decide_eq_true_2 by exact Hin. rewrite Hinit.
    match goal with |- context [rbind ?a ?f] => destruct (rbind a f) end; reflexivity.
Qed.

(** C5, counterexample.  The same request twice on the demo process: the
    first run, a cache miss, leaves the cache empty, and the second run
    calls [vector_store.search] again. *)
Lemma repeated_request_runs_search_again :
  query_cache (recommend_furniture chair_request demo_app).1 = QueryCache.init
  /\ search_calls
       (recommend_furniture chair_request
          (recommend_furniture chair_request demo_app).1).1
     = [("chair", 1, 8); ("chair", 1, 8)]
  /\ exists response,
       (recommend_furniture chair_request
          (recommend_furniture chair_request demo_app).1).2 = Ok response
       /\ map uniq_id (resp_products response) = ["demo-1"].
Proof.
  split; [reflexivity | split; [vm_compute; reflexivity |]].
  eexists. split; vm_compute; reflexivity.
Qed.

End RecommendFacts.

(** ** The query cache *)

Module CacheFacts.
Import Server.

(** X8.  [set(k, v)] followed by [get(k)] returns [v]. *)
Lemma cache_get_set_same {V} (c : QueryCache.t V) (key : string) (value : V) :
  QueryCache.get (QueryCache.set c key value) key = Some value.
Proof. unfold QueryCache.get, QueryCache.set. simpl. apply lookup_insert_eq. Qed.

Lemma cache_get_set_other {V} (c : QueryCache.t V) (key key' : string) (value : V) :
  key <> key' ->
  QueryCache.get (QueryCache.set c key value) key' = QueryCache.get c key'.
Proof.
  intros H. unfold QueryCache.get, QueryCache.set. simpl.
  now apply lookup_insert_ne.
Qed.

Lemma size_set_fresh {V} (c : QueryCache.t V) (key : string) (value : V) :
  QueryCache.get c key = None ->
  base.size (QueryCache.cache (QueryCache.set c key value))
  = S (base.size (QueryCache.cache c)).
Proof.
  intros H. unfold QueryCache.set. simpl. now apply map_size_insert_None.
Qed.

(** C4, the code at the failing input.  With an intended capacity of 2:
    two entries fill the cache, the older one is read, a third entry is
    set.  The cache then holds three entries and the untouched
    second-oldest key is still there: nothing is ever evicted. *)
Theorem cache_never_evicts :
  let full := QueryCache.set (QueryCache.set QueryCache.init "q1" 1%nat) "q2" 2%nat in
  let after := QueryCache.set full "q3" 3%nat in
  QueryCache.get full "q1" = Some 1%nat
  /\ base.size (QueryCache.cache after) = 3%nat
  /\ QueryCache.get after "q2" = Some 2%nat
  /\ QueryCache.get after "q1" = Some 1%nat
  /\ QueryCache.get after "q3" = Some 3%nat.
Proof.
  repeat split; vm_compute; reflexivity.
Qed.

(** X9.  The cache has no capacity: setting any number of distinct new
    keys leaves that many entries. *)
Theorem cache_grows_without_bound {V} (keys : list string) (value : V) :
  List.NoDup keys ->
  base.size (QueryCache.cache
               (fold_left (fun c key => QueryCache.set c key value) keys QueryCache.init))
  = length keys.
Proof.
  intros Hnd.
  assert (Hgen : forall (c : QueryCache.t V),
            (forall key, In key keys -> QueryCache.get c key = None) ->
            base.size (QueryCache.cache
                         (fold_left (fun c key => QueryCache.set c key value) keys c))
            = (base.size (QueryCache.cache c) + length keys)%nat).
  { induction Hnd as [| key keys Hout Hnd IH]; intros c Hfresh; simpl.
    - now rewrite Nat.add_0_r.
    - rewrite IH.
      + rewrite size_set_fresh by (apply Hfresh; now left). lia.
      + intros key' Hin. rewrite cache_get_set_other.
        * apply Hfresh. now right.
        * intros ->. contradiction. }
  rewrite Hgen.
  - unfold QueryCache.init. simpl. now rewrite map_size_empty.
  - intros key _. unfold QueryCache.get, QueryCache.init. simpl. apply lookup_empty.
Qed.

Lemma cache_grows_without_bound_witness :
  List.NoDup ["q1"; "q2"; "q3"] /\
  base.size (QueryCache.cache
               (fold_left (fun c key => QueryCache.set c key 0%nat) ["q1"; "q2"; "q3"]
                  QueryCache.init))
  = length ["q1"; "q2"; "q3"].
Proof.
  assert (H : List.NoDup ["q1"; "q2"; "q3"]).
  { repeat constructor; simpl; intuition discriminate. }
  split; [exact H | exact (cache_grows_without_bound ["q1"; "q2"; "q3"] 0%nat H)].
Defined.

End CacheFacts.

(** ** Maximal marginal relevance *)

Module MmrFacts.
Import Mock Spec.

Lemma relevance_antitone (i j : nat) :
  (i <= j)%nat -> (1 # Pos.of_succ_nat j <= 1 # Pos.of_succ_nat i)%Q.
Proof.
  intros H. unfold Qle. simpl. lia.
Qed.

Lemma mmr_score_antitone (lambda_param : Q) (n i j : nat) :
  (0 <= lambda_param)%Q -> (i <= j)%nat ->
  (mmr_score lambda_param n j <= mmr_score lambda_param n i)%Q.
Proof.
  intros Hl Hij. unfold mmr_score. cbv zeta.
  unfold Qminus. apply Qplus_le_l.
  rewrite !(Qmult_comm lambda_param).
  apply Qmult_le_compat_r; [| exact Hl].
  now apply relevance_antitone.
Qed.

Lemma scan_best_keeps (lambda_param : Q) (n : nat) (rest : list nat) (s : Q) (i : nat) :
  (forall j, In j rest -> (mmr_score lambda_param n j <= s)%Q) ->
  scan_best lambda_param n rest (Some s) (Some i) = (Some s, Some i).
Proof.
  induction rest as [| j rest IH]; intros H; simpl; [reflexivity |].
  assert (Hj : Qle_bool (mmr_score lambda_param n j) s = true).
  { apply Qle_bool_iff. apply H. left. reflexivity. }
  rewrite Hj. simpl. apply IH. intros j' Hj'. apply H. right. exact Hj'.
Qed.

(** On an increasing run of indices the scan settles on the first one. *)
Lemma scan_best_first (lambda_param : Q) (n j m : nat) :
  (0 <= lambda_param)%Q ->
  snd (scan_best lambda_param n (seq j (S m)) None None) = Some j.
Proof.
  intros Hl. simpl. rewrite scan_best_keeps; [reflexivity |].
  intros i Hi. apply in_seq in Hi.
  apply mmr_score_antitone; [exact Hl | lia].
Qed.

Lemma remove_first (j m : nat) : Py.remove j (seq j (S m)) = Ok (seq (S j) m).
Proof. simpl. now rewrite Nat.eqb_refl. Qed.

(** The loop started on [selected = [0, .., j-1]] and
    [remaining = [j, .., j+m-1]] stops with the indices in order, as many
    as [k] asks for and the candidates allow. *)
Lemma mmr_loop_prefix (lambda_param : Q) (k : Z) :
  (0 <= lambda_param)%Q ->
  forall (fuel j m : nat), (m <= fuel)%nat ->
    mmr_loop fuel lambda_param k (seq 0 j) (seq j m)
    = Ok (seq 0 (j + Nat.min m (Z.to_nat (k - Z.of_nat j)))).
Proof.
  intros Hl. induction fuel as [| fuel IH]; intros j m Hm.
  - assert (m = 0%nat) by lia. subst m. simpl.
    rewrite andb_false_r. now rewrite Nat.add_0_r.
  - cbn [mmr_loop]. rewrite !length_seq.
    destruct (Z.ltb_spec (Z.of_nat j) k) as [Hjk | Hjk]; cbn [andb].
    + destruct m as [| m]; cbn [Nat.eqb negb].
      * now rewrite Nat.add_0_r.
      * rewrite (scan_best_first lambda_param j j m Hl).
        rewrite remove_first. cbn [rbind].
        replace (seq 0 j ++ [j]) with (seq 0 (S j)) by (rewrite seq_S; reflexivity).
        rewrite IH by lia. do 2 f_equal. lia.
    + do 2 f_equal. lia.
Qed.

Lemma skipn_nth_error {A} (l : list A) (a : nat) (x : A) :
  nth_error l a = Some x -> skipn a l = x :: skipn (S a) l.
Proof.
  revert l. induction a as [| a IH]; intros [| y l] H; simpl in H; try discriminate.
  - now inversion H.
  - now apply IH.
Qed.

Lemma pick_seq (candidates : list ProductMetadata) (n a : nat) :
  (a + n <= length candidates)%nat ->
  pick candidates (seq a n) = Ok (firstn n (skipn a candidates)).
Proof.
  revert a. induction n as [| n IH]; intros a H; simpl; [reflexivity |].
  destruct (nth_error candidates a) as [x |] eqn:Hx.
  - unfold Py.index. rewrite Hx. simpl.
    rewrite IH by lia. simpl.
    now rewrite (skipn_nth_error _ _ _ Hx).
  - apply nth_error_None in Hx. lia.
Qed.

(** Past the early return the result is the first [k] candidates. *)
Lemma mmr_top_k (candidates : list ProductMetadata) (query : string) (k : Z)
  (lambda_param : Q) :
  1 <= k -> (0 <= lambda_param)%Q ->
  _maximal_marginal_relevance candidates query k lambda_param
  = Ok (firstn (Nat.min (Z.to_nat k) (length candidates)) candidates).
Proof.
  intros Hk Hl. unfold _maximal_marginal_relevance.
  destruct (Z.leb_spec (Z.of_nat (length candidates)) k) as [Hle | Hgt].
  - rewrite Nat.min_r by lia. now rewrite firstn_all.
  - unfold Py.range.
    destruct (length candidates) as [| n] eqn:Hn; [lia |].
    rewrite (remove_first 0 n). cbn [rbind app].
    change [0%nat] with (seq 0 1).
    rewrite (mmr_loop_prefix lambda_param k Hl (S n) 1 n) by lia.
    cbn [rbind].
    rewrite pick_seq by lia.
    cbn [skipn]. do 2 f_equal. lia.
Qed.

(** C10.  For every candidate list, every [k >= 1] and every lambda in
    [0, 1] the reranker returns the first [min(k, len(C))] candidates in
    their original order: neither lambda nor the candidates' categories or
    contents change the selection. *)
Theorem diversify_is_prefix (candidates : list ProductMetadata) (query : string)
  (k : Z) (lambda_param : Q) :
  1 <= k -> (0 <= lambda_param)%Q -> (lambda_param <= 1)%Q ->
  _maximal_marginal_relevance candidates query k lambda_param
  = Ok (firstn (Nat.min (Z.to_nat k) (length candidates)) candidates).
Proof.
  intros Hk Hl _. now apply mmr_top_k.
Qed.

Lemma diversify_is_prefix_witness :
  1 <= 3 /\ (0 <= 7 # 10)%Q /\ (7 # 10 <= 1)%Q /\
  _maximal_marginal_relevance [chair_A; chair_B; table_C; table_D] "furniture" 3 (7 # 10)
  = Ok (firstn (Nat.min (Z.to_nat 3) (length [chair_A; chair_B; table_C; table_D]))
          [chair_A; chair_B; table_C; table_D]).
Proof.
  assert (H0 : (0 <= 7 # 10)%Q) by (unfold Qle; simpl; lia).
  assert (H1 : (7 # 10 <= 1)%Q) by (unfold Qle; simpl; lia).
  split; [lia | split; [exact H0 | split; [exact H1 |]]].
  exact (diversify_is_prefix [chair_A; chair_B; table_C; table_D] "furniture" 3 (7 # 10)
           ltac:(lia) H0 H1).
Defined.

(** The penalty of a step is the same for every candidate: two scores of
    one step differ by lambda times the difference of the relevances. *)
Lemma mmr_penalty_ignores_candidate (lambda_param : Q) (n_selected i j : nat) :
  (mmr_score lambda_param n_selected i - mmr_score lambda_param n_selected j
   == lambda_param * ((1 # Pos.of_succ_nat i) - (1 # Pos.of_succ_nat j)))%Q.
Proof. unfold mmr_score. cbv zeta. ring. Qed.

(** C2.  The reranker never reads a category.  For any measure of
    relevance, a candidate list that spans at least two categories,
    [k >= 2] and lambda in [0, 1): also when a candidate of the list has
    the relevance of one of the first [k] candidates and a category none of
    them has, the result spans a single category whenever the first [k]
    candidates do.  On every such input the result does not span the two
    categories that the candidates offer. *)
Theorem mmr_ignores_alternative_category {S : Type} (relevance : ProductMetadata -> S)
  (candidates : list ProductMetadata) (query : string) (k : Z) (lambda_param : Q) :
  2 <= k -> (0 <= lambda_param)%Q -> (lambda_param < 1)%Q ->
  (2 <= size (spanned_categories candidates))%nat ->
  same_relevance_alternative relevance (firstn (Z.to_nat k) candidates) candidates ->
  size (spanned_categories (firstn (Z.to_nat k) candidates)) = 1%nat ->
  exists result,
    _maximal_marginal_relevance candidates query k lambda_param = Ok result
    /\ size (spanned_categories result) = 1%nat.
Proof.
  intros Hk Hl _ _ _ Hone.
  exists (firstn (Nat.min (Z.to_nat k) (length candidates)) candidates).
  assert (Hsame : firstn (Nat.min (Z.to_nat k) (length candidates)) candidates
                  = firstn (Z.to_nat k) candidates).
  { destruct (Nat.le_gt_cases (Z.to_nat k) (length candidates)) as [H | H].
    - now rewrite Nat.min_l.
    - rewrite Nat.min_r by lia. rewrite firstn_all.
      now rewrite firstn_all2 by lia. }
  split; [apply mmr_top_k; [lia | exact Hl] |].
  now rewrite Hsame.
Qed.

(** The input: the text channel lists [A] (Chair) and [B] (Chair), the
    image channel [A] and [C] (Table).  Fusion returns [A, B, C], where
    [B] and [C] have the same combined score, and the reranker keeps
    [A, B] for [k = 2] and lambda 0.7. *)
Lemma mmr_ignores_alternative_category_witness :
  let text := [chair_A; chair_B] in
  let image := [chair_A; table_C] in
  let relevance := fun c => combined_score (fl := binary64) text image (uniq_id c) in
  let candidates := [chair_A; chair_B; table_C] in
  _reciprocal_rank_fusion (fl := binary64) text image 3 = Ok candidates
  /\ 2 <= 2 /\ (0 <= 7 # 10)%Q /\ (7 # 10 < 1)%Q
  /\ (2 <= size (spanned_categories candidates))%nat
  /\ same_relevance_alternative relevance (firstn (Z.to_nat 2) candidates) candidates
  /\ size (spanned_categories (firstn (Z.to_nat 2) candidates)) = 1%nat
  /\ exists result,
       _maximal_marginal_relevance candidates "furniture" 2 (7 # 10) = Ok result
       /\ size (spanned_categories result) = 1%nat.
Proof.
  cbv zeta.
  assert (H0 : (0 <= 7 # 10)%Q) by (unfold Qle; simpl; lia).
  assert (H1 : (7 # 10 < 1)%Q) by (unfold Qlt; simpl; lia).
  assert (H2 : (2 <= size (spanned_categories [chair_A; chair_B; table_C]))%nat).
  { replace (size (spanned_categories [chair_A; chair_B; table_C])) with 2%nat
      by (vm_compute; reflexivity).
    lia. }
  assert (H3 : same_relevance_alternative
                 (fun c => combined_score (fl := binary64) [chair_A; chair_B]
                             [chair_A; table_C] (uniq_id c))
                 (firstn (Z.to_nat 2) [chair_A; chair_B; table_C])
                 [chair_A; chair_B; table_C]).
  { exists chair_B, table_C. split; [right; left; reflexivity |].
    split; [right; right; left; reflexivity |].
    split; [vm_compute; reflexivity |].
    exists "Table". split; [left; reflexivity |].
    unfold spanned_categories. rewrite elem_of_list_to_set. cbn.
    intros H. repeat (apply elem_of_cons in H; destruct H as [H | H]; [discriminate |]).
    now apply elem_of_nil in H. }
  assert (H4 : size (spanned_categories (firstn (Z.to_nat 2) [chair_A; chair_B; table_C]))
               = 1%nat) by (vm_compute; reflexivity).
  split; [vm_compute; reflexivity |].
  split; [lia | split; [exact H0 | split; [exact H1 | split; [exact H2 |]]]].
  split; [exact H3 | split; [exact H4 |]].
  exact (mmr_ignores_alternative_category _ [chair_A; chair_B; table_C] "furniture" 2
           (7 # 10) ltac:(lia) H0 H1 H2 H3 H4).
Defined.

(** The step after [A] is selected, on [A, B, C]: the code scores [C]
    below [B], whereas the specification's formula with category overlap
    scores [C] above [B]. *)
Example mmr_step_against_specification :
  (mmr_score (7 # 10) 1 2 < mmr_score (7 # 10) 1 1)%Q
  /\ (spec_mmr_score (7 # 10) (1 # 2) chair_B [chair_A]
      < spec_mmr_score (7 # 10) (1 # 3) table_C [chair_A])%Q.
Proof.
  split; vm_compute; reflexivity.
Qed.

(** When [k] covers the list the reranker returns the candidates
    unchanged, whatever lambda is. *)
Theorem diversify_noop_when_k_covers (candidates : list ProductMetadata)
  (query : string) (k : Z) (lambda_param : Q) :
  Z.of_nat (length candidates) <= k ->
  _maximal_marginal_relevance candidates query k lambda_param = Ok candidates.
Proof.
  intros H. unfold _maximal_marginal_relevance.
  destruct (Z.leb_spec (Z.of_nat (length candidates)) k); [reflexivity | lia].
Qed.

Lemma diversify_noop_when_k_covers_witness :
  Z.of_nat (length [chair_A; chair_B; table_C]) <= 10 /\
  _maximal_marginal_relevance [chair_A; chair_B; table_C] "test query" 10 (7 # 10)
  = Ok [chair_A; chair_B; table_C].
Proof.
  split; [simpl; lia |].
  apply (diversify_noop_when_k_covers [chair_A; chair_B; table_C] "test query" 10 (7 # 10)).
  simpl; lia.
Defined.

(** X6.  With [k = 0] and a non-empty list the reranker still returns the
    first candidate: index 0 is selected before the loop tests [k]. *)
Theorem diversify_k_zero_returns_first (c : ProductMetadata)
  (candidates : list ProductMetadata) (query : string) (lambda_param : Q) :
  _maximal_marginal_relevance (c :: candidates) query 0 lambda_param = Ok [c].
Proof.
  unfold _maximal_marginal_relevance.
  destruct (Z.leb_spec (Z.of_nat (length (c :: candidates))) 0) as [H | _];
    [simpl in H; lia |].
  unfold Py.range. cbn [length]. rewrite (remove_first 0 (length candidates)).
  cbn [rbind app]. destruct (length candidates); reflexivity.
Qed.

End MmrFacts.

(** ** Doubles that are scores *)

Module Binary64Facts.
Import Binary64.

(** *** Rounding keeps the sign

    The lemmas follow [SpecFloat.binary_round_aux]: shifting a mantissa to
    the right and rounding it to nearest leave a non-negative mantissa
    non-negative, so the rounded number is zero, positive or [inf]. *)

Lemma shr_1_nonneg (mrs : shr_record) : 0 <= shr_m mrs -> 0 <= shr_m (shr_1 mrs).
Proof.
  destruct mrs as [m r s]; cbn [shr_m]. intros H.
  unfold shr_1. destruct m as [| p | p]; [| destruct p | lia]; cbn [shr_m]; lia.
Qed.

Lemma iter_shr_1_nonneg (p : positive) :
  forall mrs, 0 <= shr_m mrs -> 0 <= shr_m (SpecFloat.iter_pos shr_1 p mrs).
Proof.
  induction p as [p IH | p IH |]; intros mrs H; cbn [SpecFloat.iter_pos].
  - apply IH, IH, shr_1_nonneg, H.
  - apply IH, IH, H.
  - apply shr_1_nonneg, H.
Qed.

Lemma shr_nonneg (mrs : shr_record) (e n : Z) :
  0 <= shr_m mrs -> 0 <= shr_m (fst (shr mrs e n)).
Proof.
  intros H. unfold shr. destruct n; cbn [fst]; auto.
  now apply iter_shr_1_nonneg.
Qed.

Lemma shr_fexp_nonneg (prec emax m e : Z) (l : location) :
  0 <= m -> 0 <= shr_m (fst (shr_fexp prec emax m e l)).
Proof.
  intros H. unfold shr_fexp. apply shr_nonneg.
  unfold shr_record_of_loc. destruct l as [| []]; cbn [shr_m]; exact H.
Qed.

Lemma round_nearest_even_nonneg (m : Z) (l : location) :
  0 <= m -> 0 <= round_nearest_even m l.
Proof.
  intros H. unfold round_nearest_even.
  destruct l as [| []]; try destruct (Z.even m); lia.
Qed.

Lemma binary_round_aux_nonneg (prec emax m e : Z) (l : location) :
  0 <= m -> nonneg_spec (binary_round_aux prec emax false m e l) = true.
Proof.
  intros H. unfold binary_round_aux.
  pose proof (shr_fexp_nonneg prec emax m e l H) as H1.
  destruct (shr_fexp prec emax m e l) as [mrs' e'] eqn:E1. cbn [fst] in H1.
  cbv zeta.
  pose proof (shr_fexp_nonneg prec emax
    (round_nearest_even (shr_m mrs') (loc_of_shr_record mrs')) e' loc_Exact
    (round_nearest_even_nonneg _ _ H1)) as H2.
  destruct (shr_fexp prec emax (round_nearest_even _ _) e' loc_Exact) as [mrs'' e''].
  cbn [fst] in H2.
  destruct (shr_m mrs'') as [| p | p]; [reflexivity | | lia].
  destruct (e'' <=? emax - prec); reflexivity.
Qed.

Lemma binary_normalize_nonneg (prec emax m e : Z) :
  0 <= m -> nonneg_spec (binary_normalize prec emax m e false) = true.
Proof.
  intros H. unfold binary_normalize. destruct m as [| p | p]; [reflexivity | | lia].
  unfold binary_round.
  destruct (shl_align p e _) as [mz ez].
  apply binary_round_aux_nonneg. lia.
Qed.

(** The sum of two scores is a score. *)
Lemma SFadd_nonneg (prec emax : Z) (x y : spec_float) :
  nonneg_spec x = true -> nonneg_spec y = true ->
  nonneg_spec (SFadd prec emax x y) = true.
Proof.
  destruct x as [[] | [] | | [] mx ex], y as [[] | [] | | [] my ey];
    cbn [nonneg_spec negb]; try discriminate; intros _ _; try reflexivity.
  unfold SFadd. cbv zeta. apply binary_normalize_nonneg.
  cbn [cond_Zopp]. lia.
Qed.

(** A positive number divided by a score is a score ([inf] for a zero). *)
Lemma SFdiv_nonneg (prec emax : Z) (mx : positive) (ex : Z) (y : spec_float) :
  nonneg_spec y = true ->
  nonneg_spec (SFdiv prec emax (S754_finite false mx ex) y) = true.
Proof.
  destruct y as [[] | [] | | [] my ey]; cbn [nonneg_spec negb];
    try discriminate; intros _; cbn [SFdiv xorb]; auto.
  destruct (SFdiv_core_binary prec emax (Z.pos mx) ex (Z.pos my) ey)
    as [[mz ez] lz] eqn:E.
  apply binary_round_aux_nonneg.
  unfold SFdiv_core_binary in E. cbv zeta in E.
  match type of E with context [Z.div_eucl ?a ?b] =>
    pose proof (Z.div_eucl_eq a b ltac:(lia)) as Hq;
    pose proof (Z.mod_pos_bound a b ltac:(lia)) as Hr;
    assert (0 <= a) as Ha; [|
    unfold Z.modulo in Hr; destruct (Z.div_eucl a b) as [q r] eqn:Eq]
  end.
  - destruct (_ - _ - _); try lia.
    rewrite Z.shiftl_mul_pow2 by lia.
    apply Z.mul_nonneg_nonneg; [lia |]. apply Z.pow_nonneg; lia.
  - injection E as <- _ _. nia.
Qed.

(** *** The comparison is a total preorder on scores *)

Lemma SFleb_total (x y : spec_float) :
  nonneg_spec x = true -> nonneg_spec y = true ->
  SFleb x y = true \/ SFleb y x = true.
Proof.
  destruct x as [[] | [] | | [] mx ex], y as [[] | [] | | [] my ey];
    cbn [nonneg_spec negb]; try discriminate; intros _ _;
    unfold SFleb; cbn [SFcompare]; auto.
  rewrite (Z.compare_antisym ex ey).
  destruct (Z.compare_spec ex ey) as [-> | H | H]; cbn [CompOpp]; auto.
  rewrite !Pos.compare_cont_spec. cbn [Pos.switch_Eq].
  rewrite (Pos.compare_antisym mx my).
  destruct (Pos.compare mx my); cbn [CompOpp]; auto.
Qed.

Lemma SFleb_trans (x y z : spec_float) :
  nonneg_spec x = true -> nonneg_spec y = true -> nonneg_spec z = true ->
  SFleb x y = true -> SFleb y z = true -> SFleb x z = true.
Proof.
  destruct x as [[] | [] | | [] mx ex], y as [[] | [] | | [] my ey],
    z as [[] | [] | | [] mz ez];
    cbn [nonneg_spec negb]; try discriminate; intros _ _ _;
    unfold SFleb; cbn [SFcompare];
    try (intros; reflexivity); try discriminate.
  rewrite !Pos.compare_cont_spec. cbn [Pos.switch_Eq].
  destruct (Z.compare_spec ex ey) as [-> | H | H]; try discriminate;
    destruct (Z.compare_spec ey ez) as [-> | H' | H']; try discriminate;
    try (intros _ _; reflexivity).
  - destruct (Pos.compare_spec mx my) as [-> | H1 | H1]; try discriminate;
      destruct (Pos.compare_spec my mz) as [-> | H2 | H2]; try discriminate;
      intros _ _; try reflexivity.
    + apply Pos.compare_lt_iff in H1. now rewrite H1.
    + assert (H3 : (mx < mz)%positive) by lia.
      apply Pos.compare_lt_iff in H3. now rewrite H3.
  - intros _ _. apply Z.compare_lt_iff in H. now rewrite H.
  - intros _ _. assert (H3 : ex < ez) by lia.
    apply Z.compare_lt_iff in H3. now rewrite H3.
Qed.

(** [x < y] is the negation of [y <= x]. *)
Lemma SFltb_not_leb (x y : spec_float) :
  nonneg_spec x = true -> nonneg_spec y = true ->
  SFltb x y = negb (SFleb y x).
Proof.
  destruct x as [[] | [] | | [] mx ex], y as [[] | [] | | [] my ey];
    cbn [nonneg_spec negb]; try discriminate; intros _ _;
    unfold SFltb, SFleb; cbn [SFcompare]; try reflexivity.
  rewrite (Z.compare_antisym ex ey).
  destruct (Z.compare_spec ex ey) as [-> | H | H]; cbn [CompOpp]; try reflexivity.
  rewrite !Pos.compare_cont_spec. cbn [Pos.switch_Eq].
  rewrite (Pos.compare_antisym mx my).
  destruct (Pos.compare mx my); reflexivity.
Qed.

Lemma SFeqb_leb (x y : spec_float) : SFeqb x y = true -> SFleb x y = true.
Proof.
  unfold SFeqb, SFleb. now destruct (SFcompare x y) as [[] |].
Qed.

(** *** The same for the doubles of [binary64] *)

Lemma nonneg_of_int (z : Z) : nonneg (f_of_int (PyFloat := binary64) z).
Proof.
  unfold nonneg. cbn [f_of_int binary64]. rewrite FloatAxioms.of_uint63_spec.
  apply binary_normalize_nonneg.
  pose proof (Uint63.to_Z_bounded (Uint63.of_Z z)). lia.
Qed.

Lemma nonneg_reciprocal_rank (i : nat) :
  nonneg (Mock.reciprocal_rank (fl := binary64) i).
Proof.
  unfold nonneg, Mock.reciprocal_rank. cbn [f_div f_one binary64].
  rewrite FloatAxioms.div_spec.
  change (Prim2SF PrimFloat.one) with (S754_finite false 4503599627370496 (-52)).
  apply SFdiv_nonneg, nonneg_of_int.
Qed.

Lemma nonneg_add (a b : PrimFloat.float) :
  nonneg a -> nonneg b -> nonneg (PrimFloat.add a b).
Proof. unfold nonneg. rewrite FloatAxioms.add_spec. apply SFadd_nonneg. Qed.

Lemma leb_total (a b : PrimFloat.float) :
  nonneg a -> nonneg b -> PrimFloat.leb a b = true \/ PrimFloat.leb b a = true.
Proof. unfold nonneg. rewrite !FloatAxioms.leb_spec. apply SFleb_total. Qed.

Lemma leb_trans (a b c : PrimFloat.float) :
  nonneg a -> nonneg b -> nonneg c ->
  PrimFloat.leb a b = true -> PrimFloat.leb b c = true -> PrimFloat.leb a c = true.
Proof. unfold nonneg. rewrite !FloatAxioms.leb_spec. apply SFleb_trans. Qed.

(** The sort compares keys with [<]; on scores that is the negation of
    the [<=] that the model of the sort tests. *)
Lemma ltb_not_leb (a b : PrimFloat.float) :
  nonneg a -> nonneg b -> PrimFloat.ltb a b = negb (PrimFloat.leb b a).
Proof.
  unfold nonneg. rewrite FloatAxioms.ltb_spec, FloatAxioms.leb_spec.
  apply SFltb_not_leb.
Qed.

Lemma eqb_leb (a b : PrimFloat.float) :
  PrimFloat.eqb a b = true -> PrimFloat.leb a b = true.
Proof. rewrite FloatAxioms.eqb_spec, FloatAxioms.leb_spec. apply SFeqb_leb. Qed.

End Binary64Facts.

(** ** Rank fusion *)

Module FusionFacts.
Import Mock Spec.

(** *** Dictionaries *)

Section DictFacts.
Context {V : Type}.
Implicit Types (d : Py.dict V) (k : string) (v : V).

Lemma get_set_same d k v : Py.get (Py.set d k v) k = Some v.
Proof.
  induction d as [| [k' v'] d IH]; simpl.
  - now rewrite String.eqb_refl.
  - destruct (String.eqb k' k) eqn:E; simpl; rewrite E; [reflexivity | exact IH].
Qed.

Lemma get_set_other d k k' v : k <> k' -> Py.get (Py.set d k v) k' = Py.get d k'.
Proof.
  intros Hne. induction d as [| [k0 v0] d IH]; simpl.
  - destruct (String.eqb_spec k k'); [contradiction | reflexivity].
  - destruct (String.eqb_spec k0 k) as [-> | Hk]; simpl.
    + destruct (String.eqb_spec k k'); [contradiction | reflexivity].
    + destruct (String.eqb k0 k'); [reflexivity | exact IH].
Qed.

Lemma get_None d k : Py.get d k = None <-> ~ In k (Py.keys d).
Proof.
  induction d as [| [k' v'] d IH]; simpl.
  - split; [intros _ [] | reflexivity].
  - destruct (String.eqb_spec k' k) as [-> | Hne].
    + split; [discriminate | intros H; exfalso; apply H; now left].
    + rewrite IH. split; [intros H [E | Hin]; [contradiction | now apply H] |].
      intros H Hin. apply H. now right.
Qed.

Lemma mem_true d k : Py.mem d k = true <-> In k (Py.keys d).
Proof.
  unfold Py.mem. destruct (Py.get d k) eqn:E.
  - split; [intros _ | reflexivity].
    destruct (in_dec string_dec k (Py.keys d)) as [Hin | Hout]; [exact Hin |].
    apply get_None in Hout. congruence.
  - apply get_None in E. split; [discriminate | contradiction].
Qed.

Lemma mem_false d k : Py.mem d k = false <-> ~ In k (Py.keys d).
Proof.
  rewrite <- mem_true. destruct (Py.mem d k); split; congruence.
Qed.

(** Setting a new key appends it. *)
Lemma set_fresh d k v : ~ In k (Py.keys d) -> Py.set d k v = d ++ [(k, v)].
Proof.
  induction d as [| [k' v'] d IH]; simpl; intros H; [reflexivity |].
  destruct (String.eqb_spec k' k) as [-> | Hne].
  - exfalso. apply H. now left.
  - f_equal. apply IH. intros Hin. apply H. now right.
Qed.

(** Setting a present key keeps the order of the keys. *)
Lemma keys_set_present d k v : In k (Py.keys d) -> Py.keys (Py.set d k v) = Py.keys d.
Proof.
  induction d as [| [k' v'] d IH]; simpl; intros H; [contradiction |].
  destruct (String.eqb_spec k' k) as [-> | Hne]; simpl; [reflexivity |].
  f_equal. apply IH. destruct H as [E | Hin]; [contradiction | exact Hin].
Qed.

Lemma keys_app d d' : Py.keys (d ++ d') = Py.keys d ++ Py.keys d'.
Proof. unfold Py.keys. apply map_app. Qed.

Lemma get_app_fresh d d' k : ~ In k (Py.keys d) -> Py.get (d ++ d') k = Py.get d' k.
Proof.
  induction d as [| [k' v'] d IH]; simpl; intros H; [reflexivity |].
  destruct (String.eqb_spec k' k) as [-> | Hne].
  - exfalso. apply H. now left.
  - apply IH. intros Hin. apply H. now right.
Qed.

(** In a dictionary every key has one entry. *)
Lemma In_get d k v : List.NoDup (Py.keys d) -> In (k, v) d -> Py.get d k = Some v.
Proof.
  induction d as [| [k' v'] d IH]; simpl; intros Hnd Hin; [contradiction |].
  apply NoDup_cons_iff in Hnd. destruct Hnd as [Hk' Hnd].
  destruct Hin as [E | Hin].
  - inversion E; subst. now rewrite String.eqb_refl.
  - destruct (String.eqb_spec k' k) as [-> | Hne].
    + exfalso. apply Hk'. unfold Py.keys. apply in_map_iff. now exists (k, v).
    + now apply IH.
Qed.

End DictFacts.

(** *** One channel, or two channels that share no candidate *)

Section Channels.
Context {fl : PyFloat}.

Lemma keys_scored (i : nat) (cs : list ProductMetadata) : Py.keys (scored i cs) = ids cs.
Proof.
  revert i. induction cs as [| c cs IH]; intros i; simpl; [reflexivity |].
  f_equal. apply IH.
Qed.

Lemma keys_by_id (cs : list ProductMetadata) : Py.keys (by_id cs) = ids cs.
Proof.
  unfold Py.keys, by_id, ids. rewrite map_map. reflexivity.
Qed.

Lemma NoDup_app_cons {A} (l l' : list A) (x : A) :
  List.NoDup (l ++ x :: l') -> ~ In x l /\ List.NoDup ((l ++ [x]) ++ l').
Proof.
  intros H. split.
  - intros Hin. apply NoDup_remove_2 in H. apply H. apply in_or_app. now left.
  - now rewrite <- app_assoc.
Qed.

Lemma assign_scores_fresh (cs : list ProductMetadata) :
  forall (i : nat) (d : Py.dict pyfloat),
    List.NoDup (Py.keys d ++ ids cs) -> assign_scores i cs d = d ++ scored i cs.
Proof.
  induction cs as [| c cs IH]; intros i d H; simpl.
  - now rewrite app_nil_r.
  - simpl in H. apply NoDup_app_cons in H. destruct H as [Hfresh Hnd].
    rewrite set_fresh by exact Hfresh.
    rewrite IH.
    + now rewrite <- app_assoc.
    + now rewrite keys_app.
Qed.

Lemma get_scored (cs : list ProductMetadata) :
  forall (i j : nat) (c : ProductMetadata),
    List.NoDup (ids cs) -> nth_error cs j = Some c ->
    Py.get (scored i cs) (uniq_id c) = Some (reciprocal_rank (i + j)).
Proof.
  induction cs as [| c0 cs IH]; intros i j c Hnd Hj.
  - destruct j; discriminate.
  - simpl in Hnd. apply NoDup_cons_iff in Hnd. destruct Hnd as [Hc0 Hnd].
    destruct j as [| j]; simpl in Hj |- *.
    + inversion Hj; subst. rewrite String.eqb_refl. now rewrite Nat.add_0_r.
    + destruct (String.eqb_spec (uniq_id c0) (uniq_id c)) as [E | Hne].
      * exfalso. apply Hc0. rewrite E. unfold ids. apply in_map.
        now apply nth_error_In with j.
      * rewrite (IH (S i) j c Hnd Hj). do 2 f_equal. lia.
Qed.

Lemma get_by_id (cs : list ProductMetadata) (c : ProductMetadata) :
  List.NoDup (ids cs) -> In c cs -> Py.get (by_id cs) (uniq_id c) = Some c.
Proof.
  intros Hnd Hin. apply In_get.
  - now rewrite keys_by_id.
  - unfold by_id. apply in_map_iff. now exists c.
Qed.

(** The text loop on candidates none of which is in the dictionaries yet *)
Lemma add_text_scores_fresh (text_scores : Py.dict pyfloat) (cs : list ProductMetadata) :
  forall (i : nat) (st : fusion_state),
    (forall j c, nth_error cs j = Some c ->
                 Py.get text_scores (uniq_id c) = Some (reciprocal_rank (i + j))) ->
    List.NoDup (Py.keys (combined_scores st) ++ ids cs) ->
    List.NoDup (Py.keys (all_candidates st) ++ ids cs) ->
    add_text_scores text_scores cs st
    = Ok {| combined_scores := combined_scores st ++ scored i cs;
            all_candidates := all_candidates st ++ by_id cs |}.
Proof.
  induction cs as [| c cs IH]; intros i st Hget Hc Ha; simpl.
  - rewrite !app_nil_r. now destruct st.
  - simpl in Hc, Ha.
    apply NoDup_app_cons in Hc. destruct Hc as [Hfc Hc].
    apply NoDup_app_cons in Ha. destruct Ha as [Hfa Ha].
    unfold Py.getitem. rewrite (Hget 0%nat c eq_refl). cbn [rbind].
    rewrite Nat.add_0_r.
    rewrite !set_fresh by assumption.
    rewrite (IH (S i)); cbn [combined_scores all_candidates].
    + now rewrite <- !app_assoc.
    + intros j c' Hj. rewrite (Hget (S j) c' Hj). do 2 f_equal. lia.
    + now rewrite keys_app.
    + now rewrite keys_app.
Qed.

(** The image loop on candidates none of which is in the dictionaries yet *)
Lemma add_image_scores_fresh (image_scores : Py.dict pyfloat) (cs : list ProductMetadata) :
  forall (i : nat) (st : fusion_state),
    (forall j c, nth_error cs j = Some c ->
                 Py.get image_scores (uniq_id c) = Some (reciprocal_rank (i + j))) ->
    List.NoDup (Py.keys (combined_scores st) ++ ids cs) ->
    List.NoDup (Py.keys (all_candidates st) ++ ids cs) ->
    add_image_scores image_scores cs st
    = Ok {| combined_scores := combined_scores st ++ scored i cs;
            all_candidates := all_candidates st ++ by_id cs |}.
Proof.
  induction cs as [| c cs IH]; intros i st Hget Hc Ha; simpl.
  - rewrite !app_nil_r. now destruct st.
  - simpl in Hc, Ha.
    apply NoDup_app_cons in Hc. destruct Hc as [Hfc Hc].
    apply NoDup_app_cons in Ha. destruct Ha as [Hfa Ha].
    unfold Py.getitem at 1. rewrite (Hget 0%nat c eq_refl). cbn [rbind].
    rewrite Nat.add_0_r.
    rewrite (proj2 (mem_false _ _) Hfc). cbn [rbind].
    rewrite !set_fresh by assumption.
    rewrite (IH (S i)); cbn [combined_scores all_candidates].
    + now rewrite <- !app_assoc.
    + intros j c' Hj. rewrite (Hget (S j) c' Hj). do 2 f_equal. lia.
    + now rewrite keys_app.
    + now rewrite keys_app.
Qed.

Lemma assign_scores_table (cs : list ProductMetadata) :
  List.NoDup (ids cs) -> assign_scores 0 cs [] = scored 0 cs.
Proof. intros H. now rewrite assign_scores_fresh. Qed.

(** A score table whose scores do not increase from a rank to the next
    is already in descending order. *)
Lemma sorted_float_desc_scored (cs : list ProductMetadata) :
  forall i,
    (forall r, (S r < length cs)%nat ->
               f_leb (reciprocal_rank (i + S r)) (reciprocal_rank (i + r)) = true) ->
    Py.sorted_float_desc snd (scored i cs) = scored i cs.
Proof.
  induction cs as [| c cs IH]; intros i Hdesc; [reflexivity |].
  change (Py.sorted_float_desc snd (scored i (c :: cs)))
    with (Py.insert_float_desc snd (uniq_id c, reciprocal_rank i)
            (Py.sorted_float_desc snd (scored (S i) cs))).
  rewrite IH.
  - destruct cs as [| c' cs]; [reflexivity |].
    cbn [scored Py.insert_float_desc snd].
    pose proof (Hdesc 0%nat ltac:(simpl; lia)) as H.
    rewrite Nat.add_0_r, Nat.add_1_r in H. now rewrite H.
  - intros r Hr. pose proof (Hdesc (S r) ltac:(simpl; lia)) as H.
    replace (S i + S r)%nat with (i + S (S r))%nat by lia.
    replace (S i + r)%nat with (i + S r)%nat by lia.
    exact H.
Qed.

Lemma collect_scored (all : Py.dict ProductMetadata) (cs : list ProductMetadata) :
  (forall c, In c cs -> Py.get all (uniq_id c) = Some c) ->
  forall (n i : nat) (acc : list ProductMetadata),
    collect all (firstn n (scored i cs)) acc = acc ++ firstn n cs.
Proof.
  induction cs as [| c cs IH]; intros Hall n i acc.
  - simpl. rewrite !firstn_nil. simpl. now rewrite app_nil_r.
  - destruct n as [| n]; simpl; [now rewrite app_nil_r |].
    rewrite (Hall c) by now left.
    rewrite IH.
    + now rewrite <- app_assoc.
    + intros c' Hc'. apply Hall. now right.
Qed.

Lemma slice_to_nonneg {A} (l : list A) (k : Z) :
  0 <= k -> Py.slice_to l k = firstn (Z.to_nat k) l.
Proof.
  intros Hk. unfold Py.slice_to, Py.slice_bound.
  destruct (Z.ltb_spec k 0); [lia |].
  destruct (Nat.le_gt_cases (Z.to_nat k) (length l)).
  - now rewrite Nat.min_l.
  - rewrite Nat.min_r by lia. rewrite firstn_all. now rewrite firstn_all2 by lia.
Qed.

Lemma fuse_of_table (cs : list ProductMetadata) (k : Z) :
  List.NoDup (ids cs) -> 0 <= k ->
  (forall r, (S r < length cs)%nat ->
             f_leb (reciprocal_rank (S r)) (reciprocal_rank r) = true) ->
  collect (by_id cs) (Py.slice_to (Py.sorted_float_desc snd (scored 0 cs)) k) []
  = firstn (Z.to_nat k) cs.
Proof.
  intros Hnd Hk Hdesc. rewrite sorted_float_desc_scored by exact Hdesc.
  rewrite slice_to_nonneg by exact Hk.
  rewrite collect_scored; [reflexivity |].
  intros c Hc. now apply get_by_id.
Qed.

(** Fusion with an empty channel, in an arithmetic where the scores
    [1/(r+1)] of the ranks of the list do not increase with the rank *)
Lemma fuse_one_channel (B : list ProductMetadata) (k : Z) :
  List.NoDup (ids B) -> 0 <= k ->
  (forall r, (S r < length B)%nat ->
             f_leb (reciprocal_rank (S r)) (reciprocal_rank r) = true) ->
  _reciprocal_rank_fusion [] B k = Ok (firstn (Z.to_nat k) B)
  /\ _reciprocal_rank_fusion B [] k = Ok (firstn (Z.to_nat k) B)
  /\ _reciprocal_rank_fusion [] [] k = Ok [].
Proof.
  intros Hnd Hk Hdesc.
  assert (Hget : forall j c, nth_error B j = Some c ->
            Py.get (scored 0 B) (uniq_id c) = Some (reciprocal_rank (0 + j))).
  { intros j c Hj. now apply get_scored. }
  split; [| split].
  - unfold _reciprocal_rank_fusion, combine. cbn [assign_scores add_text_scores rbind].
    rewrite assign_scores_table by exact Hnd.
    rewrite (add_image_scores_fresh _ B 0%nat) by (try exact Hget; exact Hnd).
    cbn [rbind combined_scores all_candidates app Py.items].
    unfold Py.items. now rewrite fuse_of_table.
  - unfold _reciprocal_rank_fusion, combine. cbn [assign_scores].
    rewrite assign_scores_table by exact Hnd.
    rewrite (add_text_scores_fresh _ B 0%nat) by (try exact Hget; exact Hnd).
    cbn [rbind combined_scores all_candidates app add_image_scores].
    unfold Py.items. now rewrite fuse_of_table.
  - unfold _reciprocal_rank_fusion. simpl. unfold Py.slice_to. simpl.
    now rewrite firstn_nil.
Qed.


End Channels.


(** The premise on the scores holds for exact scores and, by evaluation,
    for the doubles of the first 4096 ranks. *)
Lemma exact_reciprocal_rank_antitone (r : nat) :
  f_leb (reciprocal_rank (fl := exact) (S r)) (reciprocal_rank r) = true.
Proof.
  unfold reciprocal_rank. cbn [f_leb f_div f_one f_of_int exact].
  apply Qle_bool_iff.
  replace (Z.of_nat (S r) + 1) with (Z.pos (Pos.of_succ_nat (S r))) by lia.
  replace (Z.of_nat r + 1) with (Z.pos (Pos.of_succ_nat r)) by lia.
  unfold Qle. simpl. lia.
Qed.

Lemma binary64_reciprocal_rank_antitone (r : nat) :
  (r < 4096)%nat ->
  f_leb (reciprocal_rank (fl := binary64) (S r)) (reciprocal_rank r) = true.
Proof.
  intros Hr.
  assert (Hall : forallb (fun r => f_leb (reciprocal_rank (fl := binary64) (S r))
                                         (reciprocal_rank r))
                         (seq 0 4096) = true) by (vm_compute; reflexivity).
  rewrite forallb_forall in Hall. apply Hall. apply in_seq. lia.
Qed.

(** Hence the empty channel is an identity for exact scores, and for the
    doubles the interpreter computes and a ranked list of at most 4096
    candidates. *)
Corollary empty_channel_identity_exact (B : list ProductMetadata) (k : Z) :
  List.NoDup (ids B) -> 0 <= k ->
  _reciprocal_rank_fusion (fl := exact) [] B k = Ok (firstn (Z.to_nat k) B)
  /\ _reciprocal_rank_fusion (fl := exact) B [] k = Ok (firstn (Z.to_nat k) B)
  /\ _reciprocal_rank_fusion (fl := exact) [] [] k = Ok [].
Proof.
  intros Hnd Hk. apply fuse_one_channel; [exact Hnd | exact Hk |].
  intros r _. apply exact_reciprocal_rank_antitone.
Qed.

Corollary empty_channel_identity_binary64 (B : list ProductMetadata) (k : Z) :
  List.NoDup (ids B) -> 0 <= k -> (length B <= 4096)%nat ->
  _reciprocal_rank_fusion (fl := binary64) [] B k = Ok (firstn (Z.to_nat k) B)
  /\ _reciprocal_rank_fusion (fl := binary64) B [] k = Ok (firstn (Z.to_nat k) B)
  /\ _reciprocal_rank_fusion (fl := binary64) [] [] k = Ok [].
Proof.
  intros Hnd Hk Hlen. apply fuse_one_channel; [exact Hnd | exact Hk |].
  intros r Hr. apply binary64_reciprocal_rank_antitone. lia.
Qed.

(** *** Two channels with shared candidates *)

Section TwoChannels.
Context {fl : PyFloat}.

Lemma elem_true (id : string) (l : list string) : elem id l = true <-> In id l.
Proof.
  unfold elem. rewrite existsb_exists. split.
  - intros (x & Hx & E). apply String.eqb_eq in E. now subst.
  - intros H. exists id. split; [exact H | apply String.eqb_refl].
Qed.

Lemma elem_false (id : string) (l : list string) : elem id l = false <-> ~ In id l.
Proof.
  rewrite <- elem_true. destruct (elem id l); split; congruence.
Qed.

Lemma rank_of_None (id : string) (cs : list ProductMetadata) :
  rank_of id cs = None <-> ~ In id (ids cs).
Proof.
  induction cs as [| c cs IH]; simpl.
  - split; [intros _ [] | reflexivity].
  - destruct (String.eqb_spec (uniq_id c) id) as [E | Hne].
    + split; [discriminate | intros H; exfalso; apply H; now left].
    + destruct (rank_of id cs) as [r |]; simpl.
      * split; [discriminate |]. intros H. exfalso.
        apply H. right. destruct (in_dec string_dec id (ids cs)) as [Hin | Hout];
          [exact Hin | apply IH in Hout; discriminate].
      * split; [| reflexivity]. intros _ [E | Hin]; [contradiction |].
        now apply (proj1 IH).
Qed.

Lemma rank_of_In (id : string) (cs : list ProductMetadata) :
  In id (ids cs) -> exists r, rank_of id cs = Some r.
Proof.
  intros H. destruct (rank_of id cs) as [r |] eqn:E; [now exists r |].
  apply rank_of_None in E. contradiction.
Qed.

Lemma get_scored_rank (cs : list ProductMetadata) (id : string) :
  forall i, Py.get (scored i cs) id
            = option_map (fun r => reciprocal_rank (i + r)) (rank_of id cs).
Proof.
  induction cs as [| c cs IH]; intros i; simpl; [reflexivity |].
  destruct (String.eqb (uniq_id c) id).
  - simpl. now rewrite Nat.add_0_r.
  - rewrite IH. destruct (rank_of id cs) as [r |]; simpl; [| reflexivity].
    do 2 f_equal. lia.
Qed.

(** One round of the image loop on the combined scores *)
Lemma image_step (d : Py.dict pyfloat) (k : string) (s : pyfloat) :
  (if Py.mem d k
   then let* old := Py.getitem d k in Ok (Py.set d k (f_add old s))
   else Ok (Py.set d k s))
  = Ok (Py.set d k (match Py.get d k with Some old => f_add old s | None => s end)).
Proof.
  unfold Py.mem, Py.getitem. destruct (Py.get d k); reflexivity.
Qed.

Lemma mem_set_other {V} (d : Py.dict V) (k k' : string) (v : V) :
  k <> k' -> Py.mem (Py.set d k v) k' = Py.mem d k'.
Proof. intros H. unfold Py.mem. now rewrite get_set_other. Qed.

Lemma keys_set {V} (d : Py.dict V) (k : string) (v : V) :
  Py.keys (Py.set d k v) = Py.keys d ++ (if Py.mem d k then [] else [k]).
Proof.
  destruct (Py.mem d k) eqn:E.
  - apply mem_true in E. rewrite keys_set_present by exact E. now rewrite app_nil_r.
  - apply mem_false in E. rewrite set_fresh by exact E. now rewrite keys_app.
Qed.

(** The image loop in general: every listed identifier gets its image
    score, added to the score it already has, and new identifiers are
    appended in the order of the list. *)
Lemma add_image_scores_spec (image_scores : Py.dict pyfloat) (cs : list ProductMetadata) :
  forall st : fusion_state,
    List.NoDup (ids cs) ->
    (forall c, In c cs -> exists s, Py.get image_scores (uniq_id c) = Some s) ->
    exists st',
      add_image_scores image_scores cs st = Ok st'
      /\ (forall id,
             Py.get (combined_scores st') id
             = if elem id (ids cs)
               then match Py.get image_scores id with
                    | Some s =>
                        Some (match Py.get (combined_scores st) id with
                              | Some old => f_add old s
                              | None => s
                              end)
                    | None => None
                    end
               else Py.get (combined_scores st) id)
      /\ Py.keys (combined_scores st')
         = Py.keys (combined_scores st)
           ++ List.filter (fun id => negb (Py.mem (combined_scores st) id)) (ids cs).
Proof.
  induction cs as [| c cs IH]; intros st Hnd His.
  - exists st. simpl. split; [reflexivity | split; [reflexivity |]].
    now rewrite app_nil_r.
  - simpl in Hnd. apply NoDup_cons_iff in Hnd. destruct Hnd as [Hc Hnd].
    destruct (His c ltac:(now left)) as [s Hs].
    cbn [add_image_scores]. unfold Py.getitem at 1. rewrite Hs. cbn [rbind].
    rewrite image_step. cbn [rbind].
    match goal with |- context [add_image_scores _ _ ?st1] =>
      destruct (IH st1 Hnd ltac:(intros c' Hc'; apply His; now right))
        as (st' & Hrun & Hget & Hkeys)
    end.
    cbn [combined_scores] in Hget, Hkeys.
    exists st'. split; [exact Hrun | split].
    + intros id. rewrite Hget. cbn [ids map elem existsb].
      fold (elem id (map uniq_id cs)). fold (ids cs).
      destruct (String.eqb_spec id (uniq_id c)) as [-> | Hne]; cbn [orb].
      * rewrite (proj2 (elem_false _ _) Hc). rewrite get_set_same. now rewrite Hs.
      * now rewrite get_set_other by congruence.
    + rewrite Hkeys, keys_set. rewrite <- app_assoc. f_equal.
      cbn [ids map List.filter]. fold (ids cs).
      assert (Hext : List.filter
                       (fun id => negb (Py.mem (Py.set (combined_scores st) (uniq_id c)
                          (match Py.get (combined_scores st) (uniq_id c) with
                           | Some old => f_add old s
                           | None => s
                           end)) id)) (ids cs)
                     = List.filter (fun id => negb (Py.mem (combined_scores st) id)) (ids cs)).
      { apply filter_ext_in. intros id Hid.
        rewrite mem_set_other; [reflexivity |]. intros E. apply Hc. now rewrite E. }
      rewrite Hext. now destruct (Py.mem (combined_scores st) (uniq_id c)).
Qed.

(** Every combined score has its candidate, stored under its own identifier. *)
Lemma add_image_scores_candidates (image_scores : Py.dict pyfloat) (cs : list ProductMetadata) :
  forall st st' : fusion_state,
    add_image_scores image_scores cs st = Ok st' ->
    (forall id, Py.mem (combined_scores st) id = true ->
                exists c, Py.get (all_candidates st) id = Some c /\ uniq_id c = id) ->
    forall id, Py.mem (combined_scores st') id = true ->
               exists c, Py.get (all_candidates st') id = Some c /\ uniq_id c = id.
Proof.
  induction cs as [| c cs IH]; intros st st' Hrun Hinv.
  - simpl in Hrun. inversion Hrun; subst. exact Hinv.
  - cbn [add_image_scores] in Hrun.
    destruct (Py.getitem image_scores (uniq_id c)) as [s | e]; [| discriminate].
    cbn [rbind] in Hrun. rewrite image_step in Hrun. cbn [rbind] in Hrun.
    apply (IH _ _ Hrun). cbn [combined_scores all_candidates].
    intros id Hid.
    destruct (String.eqb_spec (uniq_id c) id) as [<- | Hne].
    + exists c. now rewrite get_set_same.
    + rewrite get_set_other by exact Hne.
      rewrite mem_set_other in Hid by exact Hne. now apply Hinv.
Qed.

Lemma by_id_candidates (cs : list ProductMetadata) (id : string) :
  In id (ids cs) -> exists c, Py.get (by_id cs) id = Some c /\ uniq_id c = id.
Proof.
  induction cs as [| c cs IH]; simpl; intros H; [contradiction |].
  destruct (String.eqb_spec (uniq_id c) id) as [E | Hne].
  - now exists c.
  - destruct H as [E | Hin]; [contradiction | now apply IH].
Qed.

(** The state after both loops, for two duplicate-free channels *)
Lemma combine_spec (text image : list ProductMetadata) :
  List.NoDup (ids text) -> List.NoDup (ids image) ->
  exists st,
    combine text image = Ok st
    /\ (forall id, Py.get (combined_scores st) id = combined_score text image id)
    /\ Py.keys (combined_scores st)
       = ids text ++ List.filter (fun id => negb (elem id (ids text))) (ids image)
    /\ (forall id, Py.mem (combined_scores st) id = true ->
                   exists c, Py.get (all_candidates st) id = Some c /\ uniq_id c = id).
Proof.
  intros Ht Hi. unfold combine.
  rewrite !assign_scores_table by assumption.
  rewrite (add_text_scores_fresh _ text 0%nat);
    [| intros j c Hj; now apply get_scored | exact Ht | exact Ht].
  cbn [rbind combined_scores all_candidates app].
  destruct (add_image_scores_spec (scored 0 image) image
              {| combined_scores := scored 0 text; all_candidates := by_id text |} Hi)
    as (st & Hrun & Hget & Hkeys).
  { intros c Hc. apply In_nth_error in Hc. destruct Hc as [j Hj].
    eexists. now apply (get_scored image 0 j c). }
  cbn [combined_scores] in Hget, Hkeys.
  exists st. split; [exact Hrun | split; [| split]].
  - intros id. rewrite Hget. rewrite !get_scored_rank. unfold combined_score.
    destruct (rank_of id image) as [ri |] eqn:Eri.
    + assert (Hin : elem id (ids image) = true).
      { apply elem_true. destruct (in_dec string_dec id (ids image)) as [H | H];
          [exact H | apply rank_of_None in H; congruence]. }
      rewrite Hin. simpl. now destruct (rank_of id text).
    + apply rank_of_None in Eri. rewrite (proj2 (elem_false _ _) Eri).
      now destruct (rank_of id text).
  - rewrite Hkeys, keys_scored. f_equal. apply filter_ext. intros id.
    f_equal. destruct (elem id (ids text)) eqn:E.
    + apply mem_true. rewrite keys_scored. now apply elem_true.
    + apply mem_false. rewrite keys_scored. now apply elem_false.
  - apply (add_image_scores_candidates _ _ _ _ Hrun).
    cbn [combined_scores all_candidates]. intros id Hid.
    apply mem_true in Hid. rewrite keys_scored in Hid. now apply by_id_candidates.
Qed.

(** C1.  For two ranked lists (no identifier twice in a list) the
    candidate at 0-indexed rank [r] of a channel gets the per-channel score
    [1.0 / (r + 1)], the reciprocal rank with smoothing constant 0, and a
    candidate's combined score is the sum of its per-channel scores: both
    terms when both channels list it, the one term otherwise.  The scores
    are those of the arithmetic at hand: quotients and sums rounded to
    doubles in [binary64], rationals in [exact]. *)
Theorem rank_fusion_scores (text image : list ProductMetadata) :
  List.NoDup (ids text) -> List.NoDup (ids image) ->
  (forall r c, nth_error text r = Some c ->
     Py.get (assign_scores 0 text []) (uniq_id c)
     = Some (f_div f_one (f_of_int (Z.of_nat r + 1))))
  /\ (forall r c, nth_error image r = Some c ->
        Py.get (assign_scores 0 image []) (uniq_id c)
        = Some (f_div f_one (f_of_int (Z.of_nat r + 1))))
  /\ exists st,
       combine text image = Ok st
       /\ forall id,
            Py.get (combined_scores st) id
            = match rank_of id text, rank_of id image with
              | Some rt, Some ri =>
                  Some (f_add (f_div f_one (f_of_int (Z.of_nat rt + 1)))
                              (f_div f_one (f_of_int (Z.of_nat ri + 1))))
              | Some rt, None => Some (f_div f_one (f_of_int (Z.of_nat rt + 1)))
              | None, Some ri => Some (f_div f_one (f_of_int (Z.of_nat ri + 1)))
              | None, None => None
              end.
Proof.
  intros Ht Hi. split; [| split].
  - intros r c Hr. rewrite assign_scores_table by exact Ht.
    now apply (get_scored text 0 r c).
  - intros r c Hr. rewrite assign_scores_table by exact Hi.
    now apply (get_scored image 0 r c).
  - destruct (combine_spec text image Ht Hi) as (st & Hrun & Hget & _).
    exists st. split; [exact Hrun | exact Hget].
Qed.

End TwoChannels.

Lemma rank_fusion_scores_witness :
  let text := [chair_A; chair_B; table_C] in
  let image := [chair_B; table_D; chair_A] in
  List.NoDup (ids text) /\ List.NoDup (ids image) /\
  (forall r c, nth_error text r = Some c ->
     Py.get (assign_scores (fl := binary64) 0 text []) (uniq_id c)
     = Some (PrimFloat.div PrimFloat.one (PrimFloat.of_uint63 (Uint63.of_Z (Z.of_nat r + 1)))))
  /\ (forall r c, nth_error image r = Some c ->
        Py.get (assign_scores (fl := binary64) 0 image []) (uniq_id c)
        = Some (PrimFloat.div PrimFloat.one
                  (PrimFloat.of_uint63 (Uint63.of_Z (Z.of_nat r + 1)))))
  /\ exists st,
       combine (fl := binary64) text image = Ok st
       /\ forall id,
            Py.get (combined_scores st) id
            = match rank_of id text, rank_of id image with
              | Some rt, Some ri =>
                  Some (PrimFloat.add
                          (PrimFloat.div PrimFloat.one
                             (PrimFloat.of_uint63 (Uint63.of_Z (Z.of_nat rt + 1))))
                          (PrimFloat.div PrimFloat.one
                             (PrimFloat.of_uint63 (Uint63.of_Z (Z.of_nat ri + 1)))))
              | Some rt, None =>
                  Some (PrimFloat.div PrimFloat.one
                          (PrimFloat.of_uint63 (Uint63.of_Z (Z.of_nat rt + 1))))
              | None, Some ri =>
                  Some (PrimFloat.div PrimFloat.one
                          (PrimFloat.of_uint63 (Uint63.of_Z (Z.of_nat ri + 1))))
              | None, None => None
              end.
Proof.
  assert (Ht : List.NoDup (ids [chair_A; chair_B; table_C])).
  { repeat constructor; simpl; intuition discriminate. }
  assert (Hi : List.NoDup (ids [chair_B; table_D; chair_A])).
  { repeat constructor; simpl; intuition discriminate. }
  split; [exact Ht | split; [exact Hi |]].
  exact (rank_fusion_scores (fl := binary64) [chair_A; chair_B; table_C]
           [chair_B; table_D; chair_A] Ht Hi).
Defined.

(** In exact arithmetic the score of rank [r] is the rational [1/(r+1)]. *)
Lemma exact_reciprocal_rank (r : nat) :
  reciprocal_rank (fl := exact) r = (1 # Pos.of_succ_nat r)%Q.
Proof.
  unfold reciprocal_rank. cbn [f_div f_one f_of_int exact].
  replace (Z.of_nat r + 1) with (Z.pos (Pos.of_succ_nat r)) by lia.
  reflexivity.
Qed.

(** *** The stable descending sort *)

Lemma precedes_In {A} (l : list A) (x y : A) : precedes l x y -> In x l /\ In y l.
Proof.
  induction l as [| z l IH]; simpl; [contradiction |].
  intros [[-> Hy] | H]; [now auto |].
  destruct (IH H). now auto.
Qed.

Lemma precedes_nth_error {A} (l : list A) :
  forall (i j : nat) (x y : A),
    (i < j)%nat -> nth_error l i = Some x -> nth_error l j = Some y -> precedes l x y.
Proof.
  induction l as [| z l IH]; intros i j x y Hij Hi Hj.
  - destruct i; discriminate.
  - destruct j as [| j]; [lia |]. simpl in Hj.
    destruct i as [| i]; simpl in Hi |- *.
    + inversion Hi; subst. left. split; [reflexivity |]. now apply nth_error_In with j.
    + right. apply (IH i j); [lia | assumption | assumption].
Qed.

Lemma nth_error_firstn_Some {A} (l : list A) :
  forall (n i : nat) (x : A), nth_error (firstn n l) i = Some x -> nth_error l i = Some x.
Proof.
  induction l as [| z l IH]; intros n i x H.
  - rewrite firstn_nil in H. destruct i; discriminate.
  - destruct n as [| n]; [destruct i; discriminate |].
    destruct i as [| i]; simpl in H |- *; [exact H | now apply (IH n)].
Qed.

Lemma precedes_app_inv {A} (l l' : list A) (x y : A) :
  precedes (l ++ l') x y ->
  precedes l x y \/ (In x l /\ In y l') \/ precedes l' x y.
Proof.
  induction l as [| z l IH]; simpl; [now auto |].
  intros [[-> Hy] | H].
  - apply in_app_or in Hy. destruct Hy as [Hy | Hy]; [now auto |].
    right. left. now auto.
  - destruct (IH H) as [Hp | [[Hx Hy] | Hp]]; [now auto | | now auto].
    right. left. now auto.
Qed.

Lemma precedes_filter {A} (p : A -> bool) (l : list A) (x y : A) :
  precedes (List.filter p l) x y -> precedes l x y.
Proof.
  induction l as [| z l IH]; simpl; [trivial |].
  destruct (p z); simpl.
  - intros [[-> Hy] | H]; [| right; now apply IH].
    left. split; [reflexivity |]. apply filter_In in Hy. tauto.
  - intros H. right. now apply IH.
Qed.

Lemma In_firstn {A} (l : list A) :
  forall (n : nat) (x : A), In x (firstn n l) -> In x l.
Proof.
  induction l as [| z l IH]; intros n x H.
  - now rewrite firstn_nil in H.
  - destruct n as [| n]; [contradiction |].
    destruct H as [-> | H]; [now left | right; now apply (IH n)].
Qed.

Section SortFacts.
Context {fl : PyFloat} {A : Type} (key : A -> pyfloat).

Lemma In_insert_float_desc (a x : A) (l : list A) :
  In x (Py.insert_float_desc key a l) <-> x = a \/ In x l.
Proof.
  induction l as [| z l IH]; simpl.
  - intuition.
  - destruct (f_leb (key z) (key a)); simpl; [intuition |].
    rewrite IH. intuition.
Qed.

Lemma In_sorted_float_desc (x : A) (l : list A) :
  In x (Py.sorted_float_desc key l) <-> In x l.
Proof.
  induction l as [| a l IH]; simpl; [reflexivity |].
  rewrite In_insert_float_desc, IH. intuition.
Qed.

(** The comparison is a total preorder on the keys that occur: on the
    [valid] ones. *)
Variable valid : pyfloat -> Prop.
Hypothesis leb_total :
  forall a b, valid a -> valid b -> f_leb a b = true \/ f_leb b a = true.
Hypothesis leb_trans :
  forall a b c, valid a -> valid b -> valid c ->
                f_leb a b = true -> f_leb b c = true -> f_leb a c = true.

(** Where a pair of the list after an insertion comes from *)
Lemma precedes_insert_float_desc (a : A) (l : list A) (x y : A) :
  valid (key a) -> (forall u, In u l -> valid (key u)) ->
  (forall u v, precedes l u v -> f_leb (key v) (key u) = true) ->
  precedes (Py.insert_float_desc key a l) x y ->
  precedes l x y
  \/ (x = a /\ In y l /\ f_leb (key y) (key a) = true)
  \/ (y = a /\ In x l /\ f_leb (key x) (key a) = false).
Proof using leb_trans.
  intros Ha.
  induction l as [| z l IH]; intros Hvalid Hsorted; simpl.
  - intros [[_ []] | []].
  - destruct (f_leb (key z) (key a)) eqn:E; simpl.
    + intros [[<- Hy] | H]; [| now left].
      right. left. split; [reflexivity | split; [exact Hy |]].
      destruct Hy as [<- | Hy]; [exact E |].
      apply leb_trans with (key z);
        [apply Hvalid; now right | apply Hvalid; now left | exact Ha | | exact E].
      apply Hsorted. simpl. now left.
    + intros [[<- Hy] | H].
      * apply In_insert_float_desc in Hy. destruct Hy as [-> | Hy].
        -- right. right. split; [reflexivity | split; [now left | exact E]].
        -- left. now left.
      * destruct (IH ltac:(intros u Hu; apply Hvalid; now right)
                     ltac:(intros u v Huv; apply Hsorted; simpl; now right) H)
          as [Hp | [(-> & Hy & Hle) | (-> & Hx & Hgt)]].
        -- left. now right.
        -- right. left. split; [reflexivity | split; [now right | exact Hle]].
        -- right. right. split; [reflexivity | split; [now right | exact Hgt]].
Qed.

(** The sorted list is in non-increasing order of the key. *)
Lemma sorted_float_desc_descending (l : list A) :
  (forall u, In u l -> valid (key u)) ->
  forall x y, precedes (Py.sorted_float_desc key l) x y -> f_leb (key y) (key x) = true.
Proof using leb_total leb_trans.
  induction l as [| a l IH]; intros Hvalid x y; simpl; [contradiction |].
  assert (Hl : forall u, In u l -> valid (key u)) by (intros u Hu; apply Hvalid; now right).
  intros H. apply precedes_insert_float_desc in H;
    [| apply Hvalid; now left
     | intros u Hu; apply Hl; exact (proj1 (In_sorted_float_desc u l) Hu)
     | now apply IH].
  destruct H as [Hp | [(-> & _ & Hle) | (-> & Hx & Hgt)]].
  - now apply IH.
  - exact Hle.
  - apply (proj1 (In_sorted_float_desc x l)) in Hx.
    destruct (leb_total (key x) (key a)) as [H | H];
      [now apply Hl | apply Hvalid; now left | congruence | exact H].
Qed.

(** The sort is stable: of two entries neither of which has the higher
    key, the first of the input comes first. *)
Lemma sorted_float_desc_stable (l : list A) :
  (forall u, In u l -> valid (key u)) ->
  forall x y,
    precedes (Py.sorted_float_desc key l) x y -> f_leb (key x) (key y) = true ->
    precedes l x y.
Proof using leb_total leb_trans.
  induction l as [| a l IH]; intros Hvalid x y; simpl; [contradiction |].
  assert (Hl : forall u, In u l -> valid (key u)) by (intros u Hu; apply Hvalid; now right).
  intros H Heq.
  apply precedes_insert_float_desc in H;
    [| apply Hvalid; now left
     | intros u Hu; apply Hl; exact (proj1 (In_sorted_float_desc u l) Hu)
     | now apply sorted_float_desc_descending].
  destruct H as [Hp | [(-> & Hy & _) | (-> & _ & Hgt)]].
  - right. now apply IH.
  - left. split; [reflexivity | exact (proj1 (In_sorted_float_desc y l) Hy)].
  - congruence.
Qed.

End SortFacts.

Lemma precedes_map {A B} (f : A -> B) (l : list A) (x y : A) :
  precedes l x y -> precedes (map f l) (f x) (f y).
Proof.
  induction l as [| z l IH]; simpl; [trivial |].
  intros [[-> Hy] | H]; [| right; now apply IH].
  left. split; [reflexivity | now apply in_map].
Qed.

(** *** The order of the fused list *)

Section Order.
Context {fl : PyFloat}.

Lemma precedes_rank (cs : list ProductMetadata) (a b : string) :
  List.NoDup (ids cs) -> precedes (ids cs) a b ->
  exists ra rb, rank_of a cs = Some ra /\ rank_of b cs = Some rb /\ (ra < rb)%nat.
Proof.
  induction cs as [| c cs IH]; simpl; intros Hnd H; [contradiction |].
  apply NoDup_cons_iff in Hnd. destruct Hnd as [Hc Hnd].
  destruct H as [[<- Hb] | H].
  - rewrite String.eqb_refl.
    destruct (String.eqb_spec (uniq_id c) b) as [E | Hne];
      [exfalso; apply Hc; now rewrite E |].
    destruct (rank_of_In b cs Hb) as [rb Hrb]. rewrite Hrb.
    exists 0%nat, (S rb). repeat split. lia.
  - destruct (IH Hnd H) as (ra & rb & Ha & Hb & Hlt).
    destruct (precedes_In _ _ _ H) as [Hina Hinb].
    destruct (String.eqb_spec (uniq_id c) a) as [E | _];
      [exfalso; apply Hc; now rewrite E |].
    destruct (String.eqb_spec (uniq_id c) b) as [E | _];
      [exfalso; apply Hc; now rewrite E |].
    rewrite Ha, Hb. exists (S ra), (S rb). repeat split. lia.
Qed.

(** The keys of the combined scores are in order of discovery. *)
Lemma keys_order_discovery (text image : list ProductMetadata) (a b : string) :
  List.NoDup (ids text) -> List.NoDup (ids image) ->
  precedes (ids text ++ List.filter (fun id => negb (elem id (ids text))) (ids image)) a b ->
  discovered_before (discovery text image a) (discovery text image b).
Proof.
  intros Ht Hi H. unfold discovery.
  assert (Himg : forall id,
            In id (List.filter (fun id => negb (elem id (ids text))) (ids image)) ->
            rank_of id text = None /\ In id (ids image)).
  { intros id Hid. apply filter_In in Hid. destruct Hid as [Hin Hno]. split; [| exact Hin].
    apply rank_of_None. apply elem_false. now destruct (elem id (ids text)). }
  apply precedes_app_inv in H. destruct H as [Hp | [[Ha Hb] | Hp]].
  - destruct (precedes_rank text a b Ht Hp) as (ra & rb & -> & -> & Hlt).
    simpl. right. split; [reflexivity | exact Hlt].
  - destruct (rank_of_In a text Ha) as [ra ->].
    destruct (Himg b Hb) as [-> Hbi].
    destruct (rank_of_In b image Hbi) as [rb ->].
    simpl. left. lia.
  - destruct (precedes_In _ _ _ Hp) as [Ha Hb].
    destruct (Himg a Ha) as [-> _]. destruct (Himg b Hb) as [-> _].
    apply precedes_filter in Hp.
    destruct (precedes_rank image a b Hi Hp) as (ra & rb & -> & -> & Hlt).
    simpl. right. split; [reflexivity | exact Hlt].
Qed.

Lemma NoDup_keys_combined (text image : list ProductMetadata) :
  List.NoDup (ids text) -> List.NoDup (ids image) ->
  List.NoDup (ids text ++ List.filter (fun id => negb (elem id (ids text))) (ids image)).
Proof.
  intros Ht Hi. apply List.NoDup_app; [exact Ht | now apply List.NoDup_filter |].
  intros id Hin Hf. apply filter_In in Hf. destruct Hf as [_ Hno].
  apply elem_true in Hin. rewrite Hin in Hno. discriminate.
Qed.

(** The loop that collects the candidates of the top entries keeps their
    order. *)
Lemma collect_present (all : Py.dict ProductMetadata) (top : list (string * pyfloat)) :
  (forall e, In e top -> exists c, Py.get all (fst e) = Some c /\ uniq_id c = fst e) ->
  forall acc, exists cs,
    collect all top acc = acc ++ cs /\ map uniq_id cs = map fst top.
Proof.
  induction top as [| [id s] top IH]; intros Hall acc.
  - exists []. simpl. now rewrite app_nil_r.
  - destruct (Hall (id, s) ltac:(now left)) as (c & Hc & Hid). simpl in Hc, Hid.
    destruct (IH ltac:(intros e He; apply Hall; now right) (acc ++ [c]))
      as (cs & Hrun & Hids).
    exists (c :: cs). simpl. rewrite Hc, Hrun. split.
    + now rewrite <- app_assoc.
    + now rewrite Hid, Hids.
Qed.

(** The scores are [valid] and the comparison is a total preorder on
    the valid ones. *)
Variable valid : pyfloat -> Prop.
Hypothesis valid_reciprocal_rank : forall r, valid (reciprocal_rank r).
Hypothesis valid_add : forall a b, valid a -> valid b -> valid (f_add a b).
Hypothesis leb_total :
  forall a b, valid a -> valid b -> f_leb a b = true \/ f_leb b a = true.
Hypothesis leb_trans :
  forall a b c, valid a -> valid b -> valid c ->
                f_leb a b = true -> f_leb b c = true -> f_leb a c = true.

Lemma valid_combined_score (text image : list ProductMetadata) (id : string)
  (s : pyfloat) :
  combined_score text image id = Some s -> valid s.
Proof using valid_reciprocal_rank valid_add.
  unfold combined_score.
  destruct (rank_of id text), (rank_of id image); intros H; inversion H; subst; auto.
Qed.

(** The fused list is in non-increasing order of the combined scores the
    code computes, and of two candidates neither of which has the higher
    score the one discovered first comes first. *)
Lemma fuse_sorted_by_score (text image : list ProductMetadata) (k : Z) :
  List.NoDup (ids text) -> List.NoDup (ids image) ->
  exists fused,
    _reciprocal_rank_fusion text image k = Ok fused
    /\ forall (i j : nat) (ci cj : ProductMetadata),
         (i < j)%nat -> nth_error fused i = Some ci -> nth_error fused j = Some cj ->
         exists si sj,
           combined_score text image (uniq_id ci) = Some si
           /\ combined_score text image (uniq_id cj) = Some sj
           /\ f_leb sj si = true
           /\ (f_leb si sj = true ->
               discovered_before (discovery text image (uniq_id ci))
                                 (discovery text image (uniq_id cj))).
Proof using valid_reciprocal_rank valid_add leb_total leb_trans.
  intros Ht Hi.
  destruct (combine_spec text image Ht Hi) as (st & Hrun & Hget & Hkeys & Hcand).
  unfold _reciprocal_rank_fusion. rewrite Hrun. cbn [rbind]. unfold Py.items.
  set (sorted := Py.sorted_float_desc snd (combined_scores st)).
  assert (Hnd : List.NoDup (Py.keys (combined_scores st))).
  { rewrite Hkeys. now apply NoDup_keys_combined. }
  assert (Hentry : forall e, In e (combined_scores st) ->
            combined_score text image (fst e) = Some (snd e)).
  { intros [id s] He. simpl. rewrite <- Hget. now apply In_get. }
  assert (Hvalid : forall e, In e (combined_scores st) -> valid (snd e)).
  { intros e He. apply (valid_combined_score text image (fst e)). now apply Hentry. }
  assert (Htop : forall e, In e (Py.slice_to sorted k) -> In e (combined_scores st)).
  { intros e He. unfold Py.slice_to in He. apply In_firstn in He.
    exact (proj1 (In_sorted_float_desc snd e (combined_scores st)) He). }
  destruct (collect_present (all_candidates st) (Py.slice_to sorted k))
    with (acc := @nil ProductMetadata) as (fused & Hfused & Hids).
  { intros [id s] He. simpl. apply Hcand. apply mem_true.
    unfold Py.keys. apply in_map_iff. exists (id, s). split; [reflexivity | now apply Htop]. }
  exists fused. split; [now rewrite Hfused |].
  intros i j ci cj Hij Hci Hcj.
  assert (Hat : forall n c, nth_error fused n = Some c ->
            exists e, nth_error sorted n = Some e /\ fst e = uniq_id c).
  { intros n c Hn.
    assert (Hm : nth_error (map fst (Py.slice_to sorted k)) n = Some (uniq_id c)).
    { rewrite <- Hids. now apply map_nth_error. }
    rewrite nth_error_map in Hm.
    destruct (nth_error (Py.slice_to sorted k) n) as [e |] eqn:En; [| discriminate].
    exists e. split; [| now inversion Hm].
    unfold Py.slice_to in En. now apply nth_error_firstn_Some in En. }
  destruct (Hat i ci Hci) as (ei & Hei & Hidi).
  destruct (Hat j cj Hcj) as (ej & Hej & Hidj).
  pose proof (precedes_nth_error sorted i j ei ej Hij Hei Hej) as Hprec.
  destruct (precedes_In _ _ _ Hprec) as [Hini Hinj].
  apply (proj1 (In_sorted_float_desc snd _ _)) in Hini.
  apply (proj1 (In_sorted_float_desc snd _ _)) in Hinj.
  pose proof (Hentry ei Hini) as Hsi. pose proof (Hentry ej Hinj) as Hsj.
  rewrite Hidi in Hsi. rewrite Hidj in Hsj.
  exists (snd ei), (snd ej). split; [exact Hsi | split; [exact Hsj | split]].
  - now apply (sorted_float_desc_descending snd valid leb_total leb_trans
                 (combined_scores st) Hvalid).
  - intros Heq.
    assert (Hstable : precedes (combined_scores st) ei ej).
    { now apply (sorted_float_desc_stable snd valid leb_total leb_trans
                   (combined_scores st) Hvalid). }
    apply (precedes_map fst) in Hstable.
    change (map fst (combined_scores st)) with (Py.keys (combined_scores st)) in Hstable.
    rewrite Hkeys, Hidi, Hidj in Hstable.
    now apply keys_order_discovery.
Qed.

End Order.

(** C3.  For two ranked lists the fused list is in non-increasing order
    of combined score, and of two candidates with equal combined score the
    one discovered in the earlier channel (text before image), or at the
    lower rank of the same channel, comes first.  The combined scores are
    the doubles the code computes and compares, [1.0 / (r + 1)] and the
    rounded sum of two of them, so that two candidates whose exact sums
    are equal need not have equal combined scores.  The order is fixed by
    the inputs alone. *)
Theorem fused_order (text image : list ProductMetadata) (k : Z) :
  List.NoDup (ids text) -> List.NoDup (ids image) ->
  exists fused,
    _reciprocal_rank_fusion (fl := binary64) text image k = Ok fused
    /\ forall (i j : nat) (ci cj : ProductMetadata),
         (i < j)%nat -> nth_error fused i = Some ci -> nth_error fused j = Some cj ->
         exists si sj : PrimFloat.float,
           combined_score (fl := binary64) text image (uniq_id ci) = Some si
           /\ combined_score (fl := binary64) text image (uniq_id cj) = Some sj
           /\ PrimFloat.leb sj si = true
           /\ (PrimFloat.eqb si sj = true ->
               discovered_before (discovery text image (uniq_id ci))
                                 (discovery text image (uniq_id cj))).
Proof.
  intros Ht Hi.
  destruct (fuse_sorted_by_score (fl := binary64) Binary64.nonneg
              Binary64Facts.nonneg_reciprocal_rank Binary64Facts.nonneg_add
              Binary64Facts.leb_total Binary64Facts.leb_trans text image k Ht Hi)
    as (fused & Hrun & Hord).
  exists fused. split; [exact Hrun |].
  intros i j ci cj Hij Hci Hcj.
  destruct (Hord i j ci cj Hij Hci Hcj) as (si & sj & Hsi & Hsj & Hle & Htie).
  exists si, sj. split; [exact Hsi | split; [exact Hsj | split; [exact Hle |]]].
  intros Heq. apply Htie. now apply Binary64Facts.eqb_leb.
Qed.

(** Twelve text candidates and four image candidates, two of them listed
    by both channels: [1/3 + 1/4] and [1/12 + 1/2] are equal as rationals
    and differ as doubles. *)
Lemma fused_order_witness :
  let t := fun id => mkProduct id "" "" 1 [] "" in
  let text := map t ["t1"; "t2"; "t3"; "t4"; "t5"; "t6"; "t7"; "t8"; "t9"; "t10";
                     "t11"; "t12"] in
  let image := map t ["i1"; "t12"; "i3"; "t3"] in
  List.NoDup (ids text) /\ List.NoDup (ids image) /\
  exists fused,
    _reciprocal_rank_fusion (fl := binary64) text image 4 = Ok fused
    /\ forall (i j : nat) (ci cj : ProductMetadata),
         (i < j)%nat -> nth_error fused i = Some ci -> nth_error fused j = Some cj ->
         exists si sj : PrimFloat.float,
           combined_score (fl := binary64) text image (uniq_id ci) = Some si
           /\ combined_score (fl := binary64) text image (uniq_id cj) = Some sj
           /\ PrimFloat.leb sj si = true
           /\ (PrimFloat.eqb si sj = true ->
               discovered_before (discovery text image (uniq_id ci))
                                 (discovery text image (uniq_id cj))).
Proof.
  cbv zeta.
  assert (Ht : List.NoDup (ids (map (fun id => mkProduct id "" "" 1 [] "")
                 ["t1"; "t2"; "t3"; "t4"; "t5"; "t6"; "t7"; "t8"; "t9"; "t10";
                  "t11"; "t12"]))).
  { cbn. repeat constructor; simpl; intuition discriminate. }
  assert (Hi : List.NoDup (ids (map (fun id => mkProduct id "" "" 1 [] "")
                 ["i1"; "t12"; "i3"; "t3"]))).
  { cbn. repeat constructor; simpl; intuition discriminate. }
  split; [exact Ht | split; [exact Hi |]].
  exact (fused_order _ _ 4 Ht Hi).
Defined.

(** C3, counterexample to the reading with exact scores.  On that input
    [t3] has the exact combined score [1/3 + 1/4] and [t12] the equal
    [1/12 + 1/2], and [t3] is discovered first (rank 2 of the text channel,
    [t12] rank 11).  As doubles the sums are 0.58333333333333326 and
    0.58333333333333337, and the code returns [t12] before [t3]; with
    exact scores the sort would keep [t3] first. *)
Lemma exact_ties_broken_by_rounding :
  let t := fun id => mkProduct id "" "" 1 [] "" in
  let text := map t ["t1"; "t2"; "t3"; "t4"; "t5"; "t6"; "t7"; "t8"; "t9"; "t10";
                     "t11"; "t12"] in
  let image := map t ["i1"; "t12"; "i3"; "t3"] in
  _reciprocal_rank_fusion (fl := binary64) text image 4
  = Ok (map t ["t1"; "i1"; "t12"; "t3"])
  /\ (exists s3 s12 : Q,
        combined_score (fl := exact) text image "t3" = Some s3
        /\ combined_score (fl := exact) text image "t12" = Some s12
        /\ (s3 == s12)%Q)
  /\ discovered_before (discovery text image "t3") (discovery text image "t12")
  /\ (exists d3 d12 : PrimFloat.float,
        combined_score (fl := binary64) text image "t3" = Some d3
        /\ combined_score (fl := binary64) text image "t12" = Some d12
        /\ PrimFloat.ltb d3 d12 = true)
  /\ _reciprocal_rank_fusion (fl := exact) text image 4
     = Ok (map t ["t1"; "i1"; "t3"; "t12"]).
Proof.
  cbv zeta. split; [vm_compute; reflexivity |].
  split.
  { eexists _, _. split; [vm_compute; reflexivity |].
    split; [vm_compute; reflexivity | vm_compute; reflexivity]. }
  split.
  { unfold discovered_before. cbn. right. split; [reflexivity | lia]. }
  split.
  { eexists _, _. split; [vm_compute; reflexivity |].
    split; [vm_compute; reflexivity | vm_compute; reflexivity]. }
  vm_compute. reflexivity.
Qed.

(** The tie-break at work: with text [A, B] and image [C, D] the scores
    are 1, 1/2, 1, 1/2 and the fused list is [A, C, B, D]. *)
Example fused_order_ties :
  _reciprocal_rank_fusion (fl := binary64) [chair_A; chair_B] [table_C; table_D] 4
  = Ok [chair_A; table_C; chair_B; table_D].
Proof. vm_compute. reflexivity. Qed.

(** *** Size and identifiers of the fused list *)

Section Identifiers.
Context {fl : PyFloat}.

Lemma NoDup_firstn {A} (l : list A) :
  forall n, List.NoDup l -> List.NoDup (firstn n l).
Proof.
  induction l as [| z l IH]; intros n H.
  - now rewrite firstn_nil.
  - destruct n as [| n]; simpl; [constructor |].
    apply NoDup_cons_iff in H. destruct H as [Hz H].
    constructor; [| now apply IH].
    intros Hin. apply Hz. now apply In_firstn in Hin.
Qed.

Lemma NoDup_keys_insert_float_desc (e : string * pyfloat) (l : list (string * pyfloat)) :
  ~ In (fst e) (map fst l) -> List.NoDup (map fst l) ->
  List.NoDup (map fst (Py.insert_float_desc snd e l)).
Proof.
  induction l as [| z l IH]; simpl; intros Hout Hnd.
  - constructor; [intros [] | constructor].
  - destruct (f_leb (snd z) (snd e)); simpl.
    + constructor; assumption.
    + apply NoDup_cons_iff in Hnd. destruct Hnd as [Hz Hnd].
      constructor.
      * intros Hin. apply in_map_iff in Hin. destruct Hin as (x & Hx & Hin).
        apply In_insert_float_desc in Hin. destruct Hin as [-> | Hin].
        -- apply Hout. now left.
        -- apply Hz. rewrite <- Hx. now apply in_map.
      * apply IH; [| exact Hnd]. intros Hin. apply Hout. now right.
Qed.

Lemma NoDup_keys_sorted_float_desc (l : list (string * pyfloat)) :
  List.NoDup (map fst l) -> List.NoDup (map fst (Py.sorted_float_desc snd l)).
Proof.
  induction l as [| e l IH]; simpl; intros Hnd; [constructor |].
  apply NoDup_cons_iff in Hnd. destruct Hnd as [He Hnd].
  apply NoDup_keys_insert_float_desc; [| now apply IH].
  intros Hin. apply He. apply in_map_iff in Hin. destruct Hin as (x & Hx & Hin).
  apply (proj1 (In_sorted_float_desc snd _ _)) in Hin. rewrite <- Hx. now apply in_map.
Qed.

(** The identifiers of the fused list are those of the top entries of the
    sorted combined scores. *)
Lemma fuse_ids (text image : list ProductMetadata) (k : Z) :
  List.NoDup (ids text) -> List.NoDup (ids image) ->
  exists st fused,
    combine text image = Ok st
    /\ _reciprocal_rank_fusion text image k = Ok fused
    /\ ids fused
       = map fst (Py.slice_to (Py.sorted_float_desc snd (combined_scores st)) k)
    /\ List.NoDup (Py.keys (combined_scores st)).
Proof.
  intros Ht Hi.
  destruct (combine_spec text image Ht Hi) as (st & Hrun & Hget & Hkeys & Hcand).
  destruct (collect_present (all_candidates st)
              (Py.slice_to (Py.sorted_float_desc snd (combined_scores st)) k))
    with (acc := @nil ProductMetadata) as (fused & Hfused & Hids).
  { intros [id s] He. simpl. apply Hcand. apply mem_true.
    unfold Py.keys. apply in_map_iff. exists (id, s). split; [reflexivity |].
    unfold Py.slice_to in He. apply In_firstn in He.
    exact (proj1 (In_sorted_float_desc snd _ _) He). }
  exists st, fused. split; [exact Hrun | split; [| split]].
  - unfold _reciprocal_rank_fusion. rewrite Hrun. cbn [rbind]. unfold Py.items.
    now rewrite Hfused.
  - exact Hids.
  - rewrite Hkeys. now apply NoDup_keys_combined.
Qed.

(** X1.  For two ranked lists and [k >= 0] the fused list has at most
    [k] entries and no identifier twice. *)
Theorem fuse_bounded_without_duplicates (text image : list ProductMetadata) (k : Z) :
  List.NoDup (ids text) -> List.NoDup (ids image) -> 0 <= k ->
  exists fused,
    _reciprocal_rank_fusion text image k = Ok fused
    /\ Z.of_nat (length fused) <= k
    /\ List.NoDup (ids fused).
Proof.
  intros Ht Hi Hk.
  destruct (fuse_ids text image k Ht Hi) as (st & fused & _ & Hrun & Hids & Hnd).
  exists fused. split; [exact Hrun |].
  rewrite slice_to_nonneg in Hids by exact Hk.
  split.
  - assert (Hlen : length fused
                   = length (firstn (Z.to_nat k) (Py.sorted_float_desc snd (combined_scores st)))).
    { rewrite <- (length_map uniq_id fused). fold (ids fused). rewrite Hids.
      apply length_map. }
    rewrite Hlen, length_firstn. lia.
  - rewrite Hids, <- firstn_map. apply NoDup_firstn.
    now apply NoDup_keys_sorted_float_desc.
Qed.

End Identifiers.

Lemma fuse_bounded_without_duplicates_witness :
  let text := [chair_A; chair_B; table_C] in
  let image := [chair_B; table_D; chair_A] in
  List.NoDup (ids text) /\ List.NoDup (ids image) /\ 0 <= 3 /\
  exists fused,
    _reciprocal_rank_fusion (fl := binary64) text image 3 = Ok fused
    /\ Z.of_nat (length fused) <= 3
    /\ List.NoDup (ids fused).
Proof.
  assert (Ht : List.NoDup (ids [chair_A; chair_B; table_C])).
  { repeat constructor; simpl; intuition discriminate. }
  assert (Hi : List.NoDup (ids [chair_B; table_D; chair_A])).
  { repeat constructor; simpl; intuition discriminate. }
  split; [exact Ht | split; [exact Hi | split; [lia |]]].
  exact (fuse_bounded_without_duplicates (fl := binary64) [chair_A; chair_B; table_C]
           [chair_B; table_D; chair_A] 3 Ht Hi ltac:(lia)).
Defined.


(** The combined score of a candidate that both channels list *)
Lemma combined_score_of_both {fl : PyFloat} (text image : list ProductMetadata)
  (id : string) (rt ri : nat) :
  List.NoDup (ids text) -> List.NoDup (ids image) ->
  rank_of id text = Some rt -> rank_of id image = Some ri ->
  exists st,
    combine text image = Ok st
    /\ Py.get (combined_scores st) id
       = Some (f_add (reciprocal_rank rt) (reciprocal_rank ri)).
Proof.
  intros Ht Hi Hrt Hri.
  destruct (combine_spec text image Ht Hi) as (st & Hrun & Hget & _).
  exists st. split; [exact Hrun |].
  rewrite Hget. unfold combined_score. now rewrite Hrt, Hri.
Qed.



(** The premise on the sums holds for exact scores at every pair of ranks. *)
Lemma exact_sum_not_below_terms (i j : nat) :
  f_leb (reciprocal_rank (fl := exact) i)
        (f_add (reciprocal_rank i) (reciprocal_rank j)) = true
  /\ f_leb (reciprocal_rank (fl := exact) j)
           (f_add (reciprocal_rank i) (reciprocal_rank j)) = true.
Proof.
  rewrite !exact_reciprocal_rank. cbn [f_leb f_add exact].
  assert (Hpos : forall r, (0 <= 1 # Pos.of_succ_nat r)%Q).
  { intros r. unfold Qle. simpl. lia. }
  split; apply Qle_bool_iff.
  - rewrite <- (Qplus_0_r (1 # Pos.of_succ_nat i)) at 1.
    apply Qplus_le_r. apply Hpos.
  - rewrite <- (Qplus_0_l (1 # Pos.of_succ_nat j)) at 1.
    apply Qplus_le_l. apply Hpos.
Qed.

(** Hence, with exact scores, the combined score of a candidate of both
    channels is at least [1/(rt+1)] and at least [1/(ri+1)]. *)
Corollary combined_score_at_least_terms_exact (text image : list ProductMetadata)
  (id : string) (rt ri : nat) :
  List.NoDup (ids text) -> List.NoDup (ids image) ->
  rank_of id text = Some rt -> rank_of id image = Some ri ->
  exists (st : fusion_state (fl := exact)) (s : Q),
    combine text image = Ok st
    /\ Py.get (combined_scores st) id = Some s
    /\ (1 # Pos.of_succ_nat rt <= s)%Q /\ (1 # Pos.of_succ_nat ri <= s)%Q.
Proof.
  intros Ht Hi Hrt Hri.
  destruct (combined_score_of_both (fl := exact) text image id rt ri Ht Hi Hrt Hri)
    as (st & Hrun & Hget).
  exists st, (f_add (PyFloat := exact) (reciprocal_rank rt) (reciprocal_rank ri)).
  split; [exact Hrun | split; [exact Hget |]].
  destruct (exact_sum_not_below_terms rt ri) as [H1 H2].
  cbn [f_leb exact] in H1, H2. apply Qle_bool_iff in H1, H2.
  rewrite <- !exact_reciprocal_rank. split; assumption.
Qed.

End FusionFacts.

(** ** Drive URLs and the choice of a CSV file *)

Module FetchFacts.
Import FetchData.

Lemma append_nil_l (b : string) : "" +:+ b = b.
Proof. reflexivity. Qed.

Lemma append_cons (x : ascii) (a b : string) : String x a +:+ b = String x (a +:+ b).
Proof. reflexivity. Qed.

Lemma append_assoc (a b c : string) : (a +:+ b) +:+ c = a +:+ b +:+ c.
Proof.
  induction a as [| x a IH]; [reflexivity |].
  rewrite !append_cons. f_equal. exact IH.
Qed.

Lemma append_nil_r (a : string) : a +:+ "" = a.
Proof.
  induction a as [| x a IH]; [reflexivity |].
  rewrite append_cons. f_equal. exact IH.
Qed.

Lemma length_append (a b : string) :
  String.length (a +:+ b) = (String.length a + String.length b)%nat.
Proof.
  induction a as [| x a IH]; [reflexivity |].
  rewrite append_cons. simpl. f_equal. exact IH.
Qed.

Lemma prefix_append (s t : string) : String.prefix s (s +:+ t) = true.
Proof.
  induction s as [| x s IH]; [rewrite append_nil_l; now destruct t |].
  rewrite append_cons. simpl.
  destruct (ascii_dec x x); [exact IH | contradiction].
Qed.

(** [prefix] reads no more of the text than the pattern is long. *)
Lemma prefix_short (sub a t : string) :
  (String.length sub <= String.length a)%nat ->
  String.prefix sub (a +:+ t) = String.prefix sub a.
Proof.
  revert a. induction sub as [| x sub IH]; intros a H.
  - now destruct (a +:+ t), a.
  - destruct a as [| y a]; simpl in H; [lia |].
    rewrite append_cons. simpl.
    destruct (ascii_dec x y); [apply IH; lia | reflexivity].
Qed.

Lemma str_drop_append (a t : string) : str_drop (String.length a) (a +:+ t) = t.
Proof.
  induction a as [| x a IH]; [reflexivity |].
  rewrite append_cons. simpl. exact IH.
Qed.

Lemma substring_prefix (m t : string) :
  String.substring 0 (String.length m) (m +:+ t) = m.
Proof.
  induction m as [| x m IH]; [rewrite append_nil_l; now destruct t |].
  rewrite append_cons. simpl. f_equal. exact IH.
Qed.

Lemma substring_append (a m t : string) :
  String.substring (String.length a) (String.length m) (a +:+ m +:+ t) = m.
Proof.
  induction a as [| x a IH]; [rewrite append_nil_l; apply substring_prefix |].
  rewrite append_cons. simpl. exact IH.
Qed.

Lemma contains_find_from (sub s : string) (i : nat) :
  Py.contains sub s = false -> find_from sub s i = None.
Proof.
  revert i. induction s as [| x s IH]; intros i; cbn [Py.contains find_from].
  - destruct (String.prefix sub ""); [discriminate | reflexivity].
  - destruct (String.prefix sub (String x s)); [discriminate | apply IH].
Qed.

Lemma contains_prefix (sub s : string) :
  String.prefix sub s = true -> Py.contains sub s = true.
Proof. intros H. destruct s; cbn [Py.contains]; now rewrite H. Qed.

Lemma find_from_prefix (sub s : string) (i : nat) :
  String.prefix sub s = true -> find_from sub s i = Some i.
Proof. intros H. destruct s; cbn [find_from]; now rewrite H. Qed.

Lemma contains_append (sub pre t : string) : Py.contains sub (pre +:+ sub +:+ t) = true.
Proof.
  induction pre as [| x pre IH].
  - rewrite append_nil_l. apply contains_prefix, prefix_append.
  - rewrite append_cons. cbn [Py.contains]. rewrite IH.
    now destruct (String.prefix _ _).
Qed.

(** When the pattern [init ++ c] does not occur in [pre ++ init], its first
    occurrence in [pre ++ init ++ c ++ t] is the one after [pre]. *)
Lemma find_from_first (init : string) (c : ascii) (pre t : string) (i : nat) :
  Py.contains (init +:+ String c "") (pre +:+ init) = false ->
  find_from (init +:+ String c "") (pre +:+ (init +:+ String c "") +:+ t) i
  = Some (i + String.length pre)%nat.
Proof.
  revert i. induction pre as [| x pre IH]; intros i H.
  - rewrite append_nil_l. simpl String.length. rewrite Nat.add_0_r.
    apply find_from_prefix, prefix_append.
  - rewrite append_cons in H. cbn [Py.contains] in H.
    destruct (String.prefix (init +:+ String c "") (String x (pre +:+ init))) eqn:Hp;
      [discriminate |].
    rewrite append_cons. cbn [find_from].
    assert (Hno : String.prefix (init +:+ String c "")
                    (String x (pre +:+ (init +:+ String c "") +:+ t)) = false).
    { rewrite <- Hp.
      replace (String x (pre +:+ (init +:+ String c "") +:+ t))
        with (String x (pre +:+ init) +:+ (String c "" +:+ t)).
      - apply prefix_short. simpl. rewrite !length_append. simpl. lia.
      - rewrite append_cons. now rewrite !append_assoc. }
    rewrite Hno, IH by exact H. simpl String.length. f_equal. lia.
Qed.

Lemma find_at_start (url sub : string) :
  find url sub 0
  = match find_from sub url 0 with Some i => Z.of_nat i | None => -1 end.
Proof.
  unfold find, Py.slice_bound.
  destruct (Z.ltb_spec (Z.of_nat (String.length url)) 0); [lia |].
  simpl. reflexivity.
Qed.

Lemma find_after (a t sub : string) :
  find (a +:+ t) sub (Z.of_nat (String.length a))
  = match find_from sub t (String.length a) with Some i => Z.of_nat i | None => -1 end.
Proof.
  unfold find, Py.slice_bound. rewrite length_append.
  destruct (Z.ltb_spec (Z.of_nat (String.length a + String.length t))
              (Z.of_nat (String.length a))); [lia |].
  destruct (Z.ltb_spec (Z.of_nat (String.length a)) 0); [lia |].
  rewrite Nat2Z.id, Nat.min_l by lia.
  now rewrite str_drop_append.
Qed.

Lemma str_slice_middle (a m t : string) :
  str_slice (a +:+ m +:+ t) (Z.of_nat (String.length a))
    (Z.of_nat (String.length a + String.length m)) = m.
Proof.
  unfold str_slice, Py.slice_bound. rewrite !length_append.
  destruct (Z.ltb_spec (Z.of_nat (String.length a)) 0); [lia |].
  destruct (Z.ltb_spec (Z.of_nat (String.length a + String.length m)) 0); [lia |].
  rewrite !Nat2Z.id, !Nat.min_l by lia.
  replace (String.length a + String.length m - String.length a)%nat
    with (String.length m) by lia.
  apply substring_append.
Qed.

Lemma not_minus_one (n : nat) : (Z.of_nat n =? -1) = false.
Proof. destruct (Z.eqb_spec (Z.of_nat n) (-1)); [lia | reflexivity]. Qed.

(** The text between a marker and the first [stop] character after it *)
Lemma find_stop (a fid rest : string) (stop : ascii) :
  Py.contains (String stop "") fid = false ->
  find ((a +:+ fid) +:+ String stop "" +:+ rest) (String stop "")
    (Z.of_nat (String.length a))
  = Z.of_nat (String.length a + String.length fid).
Proof.
  intros H. rewrite append_assoc, find_after.
  pose proof (find_from_first "" stop fid rest (String.length a)) as Hf.
  rewrite !append_nil_l, append_nil_r in Hf. now rewrite Hf.
Qed.

(** X16.  A file link round-trips: for
    [url = pre + "/file/d/" + id + "/" + rest], where [/file/d/] does not
    occur earlier and the identifier holds no slash, the extracted file
    identifier is [id], whatever follows. *)
Theorem extract_file_id_of_file_url (pre fid rest : string) :
  Py.contains "/file/d/" (pre +:+ "/file/d") = false ->
  Py.contains "/" fid = false ->
  extract_file_id_from_url (pre +:+ "/file/d/" +:+ fid +:+ "/" +:+ rest) = Ok fid.
Proof.
  intros Hpre Hfid. unfold extract_file_id_from_url.
  rewrite contains_append.
  assert (Hstart : find (pre +:+ "/file/d/" +:+ fid +:+ "/" +:+ rest) "/file/d/" 0 + 8
                   = Z.of_nat (String.length (pre +:+ "/file/d/"))).
  { rewrite find_at_start.
    pose proof (find_from_first "/file/d" "/" pre (fid +:+ "/" +:+ rest) 0 Hpre) as Hf.
    change ("/file/d" +:+ String "/" "") with "/file/d/" in Hf.
    rewrite Hf, length_append. simpl String.length. lia. }
  rewrite Hstart.
  replace (pre +:+ "/file/d/" +:+ fid +:+ "/" +:+ rest)
    with (((pre +:+ "/file/d/") +:+ fid) +:+ "/" +:+ rest)
    by now rewrite !append_assoc.
  rewrite (find_stop (pre +:+ "/file/d/") fid rest "/" Hfid).
  rewrite !not_minus_one. f_equal.
  rewrite append_assoc. apply str_slice_middle.
Qed.

Lemma extract_file_id_of_file_url_witness :
  Py.contains "/file/d/" ("https://drive.google.com" +:+ "/file/d") = false /\
  Py.contains "/" "1AbC_x9" = false /\
  extract_file_id_from_url
    ("https://drive.google.com" +:+ "/file/d/" +:+ "1AbC_x9" +:+ "/" +:+ "view?usp=sharing")
  = Ok "1AbC_x9".
Proof.
  split; [reflexivity | split; [reflexivity |]].
  apply (extract_file_id_of_file_url "https://drive.google.com" "1AbC_x9" "view?usp=sharing");
    reflexivity.
Defined.

(** X17.  An [id=] link round-trips: for [url = pre + "id=" + id + tail],
    where the url holds no [/file/d/], [id=] does not occur earlier, the
    identifier holds no [&] and [tail] is empty or starts with [&], the
    extracted file identifier is [id]. *)
Theorem extract_file_id_of_open_url (pre fid tail : string) :
  Py.contains "/file/d/" (pre +:+ "id=" +:+ fid +:+ tail) = false ->
  Py.contains "id=" (pre +:+ "id") = false ->
  Py.contains "&" fid = false ->
  tail = "" \/ (exists rest, tail = "&" +:+ rest) ->
  extract_file_id_from_url (pre +:+ "id=" +:+ fid +:+ tail) = Ok fid.
Proof.
  intros Hfile Hpre Hfid Htail. unfold extract_file_id_from_url.
  rewrite Hfile, contains_append.
  assert (Hstart : find (pre +:+ "id=" +:+ fid +:+ tail) "id=" 0 + 3
                   = Z.of_nat (String.length (pre +:+ "id="))).
  { rewrite find_at_start.
    pose proof (find_from_first "id" "=" pre (fid +:+ tail) 0 Hpre) as Hf.
    change ("id" +:+ String "=" "") with "id=" in Hf.
    rewrite Hf, length_append. simpl String.length. lia. }
  rewrite Hstart.
  destruct Htail as [-> | [rest ->]].
  - replace (pre +:+ "id=" +:+ fid +:+ "") with ((pre +:+ "id=") +:+ fid)
      by now rewrite append_nil_r, append_assoc.
    set (a := pre +:+ "id=").
    rewrite find_after, (contains_find_from "&" fid _ Hfid).
    rewrite Z.eqb_refl, (length_append a fid).
    pose proof (str_slice_middle a fid "") as Hs.
    rewrite append_nil_r in Hs. now rewrite Hs.
  - replace (pre +:+ "id=" +:+ fid +:+ "&" +:+ rest)
      with (((pre +:+ "id=") +:+ fid) +:+ "&" +:+ rest)
      by now rewrite !append_assoc.
    rewrite (find_stop (pre +:+ "id=") fid rest "&" Hfid).
    rewrite !not_minus_one. f_equal.
    rewrite append_assoc. apply str_slice_middle.
Qed.

Lemma extract_file_id_of_open_url_witness :
  Py.contains "/file/d/" ("https://drive.google.com/open?" +:+ "id=" +:+ "FILE99" +:+ "&x=1")
  = false /\
  Py.contains "id=" ("https://drive.google.com/open?" +:+ "id") = false /\
  Py.contains "&" "FILE99" = false /\
  ("&x=1" = "" \/ (exists rest, "&x=1" = "&" +:+ rest)) /\
  extract_file_id_from_url ("https://drive.google.com/open?" +:+ "id=" +:+ "FILE99" +:+ "&x=1")
  = Ok "FILE99".
Proof.
  assert (Ht : "&x=1" = "" \/ (exists rest, "&x=1" = "&" +:+ rest)).
  { right. exists "x=1". reflexivity. }
  split; [reflexivity | split; [reflexivity | split; [reflexivity | split; [exact Ht |]]]].
  exact (extract_file_id_of_open_url "https://drive.google.com/open?" "FILE99" "&x=1"
           eq_refl eq_refl eq_refl Ht).
Defined.

(** The head of the sorted list is the first entry of highest key. *)
Lemma sorted_desc_head {A B} (key : B -> Q) (g : A -> B) (l : list A) :
  l <> [] ->
  exists pre best post,
    l = pre ++ best :: post
    /\ nth_error (Py.sorted_desc key (map g l)) 0 = Some (g best)
    /\ (forall x, In x pre -> (key (g x) < key (g best))%Q)
    /\ (forall x, In x post -> (key (g x) <= key (g best))%Q).
Proof.
  induction l as [| a l IH]; intros Hne; [contradiction |].
  destruct l as [| b l].
  - exists [], a, []. simpl. repeat split; intros x [].
  - destruct (IH ltac:(discriminate)) as (pre & best & post & Hl & Hhd & Hpre & Hpost).
    change (Py.sorted_desc key (map g (a :: b :: l)))
      with (Py.insert_desc key (g a) (Py.sorted_desc key (map g (b :: l)))).
    destruct (Py.sorted_desc key (map g (b :: l))) as [| h tl]; [discriminate |].
    simpl in Hhd. inversion Hhd; subst h. simpl.
    destruct (Qle_bool (key (g best)) (key (g a))) eqn:E.
    + apply Qle_bool_iff in E.
      exists [], a, (b :: l). repeat split; [intros x [] |].
      intros x Hx. rewrite Hl in Hx. apply in_app_or in Hx.
      destruct Hx as [Hx | [<- | Hx]].
      * apply Qlt_le_weak. apply Qlt_le_trans with (key (g best)); [now apply Hpre | exact E].
      * exact E.
      * apply Qle_trans with (key (g best)); [now apply Hpost | exact E].
    + assert (Hlt : (key (g a) < key (g best))%Q).
      { apply Qnot_le_lt. intros H. apply Qle_bool_iff in H. congruence. }
      exists (a :: pre), best, post. rewrite Hl. repeat split.
      * intros x [<- | Hx]; [exact Hlt | now apply Hpre].
      * exact Hpost.
Qed.

(** X18.  From a non-empty list of CSV files [choose_best_csv] returns the
    first file of highest score: the files before it score strictly
    lower, the files after it no higher. *)
Theorem choose_best_csv_first_maximum
  (read_columns : string -> result (list string)) (csv_files : list string) :
  csv_files <> [] ->
  exists pre best post,
    csv_files = pre ++ best :: post
    /\ choose_best_csv read_columns csv_files = Ok best
    /\ (forall f, In f pre ->
          score_csv_for_furniture read_columns f
          < score_csv_for_furniture read_columns best)
    /\ (forall f, In f post ->
          score_csv_for_furniture read_columns f
          <= score_csv_for_furniture read_columns best).
Proof.
  intros Hne.
  destruct csv_files as [| a [| b l]]; [contradiction | |].
  - exists [], a, []. simpl. repeat split; intros f [].
  - destruct (sorted_desc_head (fun x : string * Z => inject_Z (snd x))
                (fun csv => (csv, score_csv_for_furniture read_columns csv))
                (a :: b :: l) Hne)
      as (pre & best & post & Hl & Hhd & Hpre & Hpost).
    exists pre, best, post. split; [exact Hl | split; [| split]].
    + unfold choose_best_csv, Py.index. rewrite Hhd. reflexivity.
    + intros f Hf. rewrite Zlt_Qlt. exact (Hpre f Hf).
    + intros f Hf. rewrite Zle_Qle. exact (Hpost f Hf).
Qed.

Lemma choose_best_csv_first_maximum_witness :
  let read_columns := fun path : string =>
    if String.eqb path "a.csv" then Ok ["Title"; "Price"]
    else if String.eqb path "b.csv" then Ok ["Product Name"; "Brand"]
    else Raise ValueError in
  ["a.csv"; "b.csv"; "c.csv"] <> [] /\
  exists pre best post,
    ["a.csv"; "b.csv"; "c.csv"] = pre ++ best :: post
    /\ choose_best_csv read_columns ["a.csv"; "b.csv"; "c.csv"] = Ok best
    /\ (forall f, In f pre ->
          score_csv_for_furniture read_columns f
          < score_csv_for_furniture read_columns best)
    /\ (forall f, In f post ->
          score_csv_for_furniture read_columns f
          <= score_csv_for_furniture read_columns best).
Proof.
  split; [discriminate |].
  apply (choose_best_csv_first_maximum
           (fun path : string =>
              if String.eqb path "a.csv" then Ok ["Title"; "Price"]
              else if String.eqb path "b.csv" then Ok ["Product Name"; "Brand"]
              else Raise ValueError)
           ["a.csv"; "b.csv"; "c.csv"]).
  discriminate.
Defined.

End FetchFacts.

(** ** Start-up, health and the recommend handler *)

Module LifecycleFacts.
Import Server Lifecycle.

(** X12.  [health_check] never fails and reads the registry as follows:
    the status is [healthy] exactly when the four services are registered
    and initialised, [degraded] exactly when they are registered and one
    is not initialised, and [unhealthy] exactly when one is not
    registered, in which case no per-service status is reported. *)
Theorem health_check_status (p : Process) :
  let registered :=
    "vector_store" ∈ services (app p) /\ "genai" ∈ services (app p)
    /\ "cv_classifier" ∈ services (app p) /\ "analytics" ∈ services (app p) in
  let ready :=
    initialized (vector_store (app p)) = true /\ genai_initialized (app p) = true
    /\ cv_initialized p = true /\ analytics_initialized p = true in
  (status (health_check p) = HEALTHY <-> registered /\ ready)
  /\ (status (health_check p) = DEGRADED <-> registered /\ ~ ready)
  /\ (status (health_check p) = UNHEALTHY <-> ~ registered)
  /\ (~ registered -> health_services (health_check p) = []).
Proof.
  cbv zeta. unfold health_check, service_statuses, service_initialized.
  destruct (decide ("vector_store" ∈ services (app p))) as [H1 | H1];
    [rewrite (bool_decide_eq_true_2 _ H1) | rewrite (bool_decide_eq_false_2 _ H1)];
    cbn [rbind]; [| cbn; intuition discriminate].
  destruct (decide ("genai" ∈ services (app p))) as [H2 | H2];
    [rewrite (bool_decide_eq_true_2 _ H2) | rewrite (bool_decide_eq_false_2 _ H2)];
    cbn [rbind]; [| cbn; intuition discriminate].
  destruct (decide ("cv_classifier" ∈ services (app p))) as [H3 | H3];
    [rewrite (bool_decide_eq_true_2 _ H3) | rewrite (bool_decide_eq_false_2 _ H3)];
    cbn [rbind]; [| cbn; intuition discriminate].
  destruct (decide ("analytics" ∈ services (app p))) as [H4 | H4];
    [rewrite (bool_decide_eq_true_2 _ H4) | rewrite (bool_decide_eq_false_2 _ H4)];
    cbn [rbind]; [| cbn; intuition discriminate].
  destruct (initialized (vector_store (app p))), (genai_initialized (app p)),
    (cv_initialized p), (analytics_initialized p); cbn; intuition discriminate.
Qed.

(** With the four services registered the check reports each of them. *)
Lemma health_check_registered (p : Process) :
  "vector_store" ∈ services (app p) -> "genai" ∈ services (app p) ->
  "cv_classifier" ∈ services (app p) -> "analytics" ∈ services (app p) ->
  health_check p
  = {| status := if initialized (vector_store (app p)) && genai_initialized (app p)
                    && cv_initialized p && analytics_initialized p
                 then HEALTHY else DEGRADED;
       health_services :=
         [("vector_store", service_status (initialized (vector_store (app p))));
          ("generative_ai", service_status (genai_initialized (app p)));
          ("computer_vision", service_status (cv_initialized p));
          ("analytics", service_status (analytics_initialized p))];
       version := "1.0.0" |}.
Proof.
  intros H1 H2 H3 H4. unfold health_check, service_statuses, service_initialized.
  rewrite (bool_decide_eq_true_2 _ H1), (bool_decide_eq_true_2 _ H2),
    (bool_decide_eq_true_2 _ H3), (bool_decide_eq_true_2 _ H4).
  cbn [rbind].
  destruct (initialized (vector_store (app p))), (genai_initialized (app p)),
    (cv_initialized p), (analytics_initialized p); reflexivity.
Qed.

(** X13.  When the vector store is not registered or not initialised the
    handler answers 500 and does not search: the 503 it raises for an
    uninitialised store is caught by its own [except] and reaches the
    caller wrapped in the 500. *)
Theorem recommend_unavailable_is_500 (request : RecommendRequest) (app : App) :
  "vector_store" ∉ services app \/ initialized (vector_store app) = false ->
  recommend_furniture request app
  = (app,
     Raise (HTTPException 500
              (StrOf (if bool_decide ("vector_store" ∈ services app)
                      then HTTPException 503 (Text "Vector store not available")
                      else AttributeError)))).
Proof.
  intros H. unfold recommend_furniture, recommend_try, service_initialized.
  destruct (decide ("vector_store" ∈ services app)) as [Hin | Hout].
  - rewrite (bool_decide_eq_true_2 _ Hin).
    destruct H as [H | H]; [contradiction |]. now rewrite H.
  - now rewrite (bool_decide_eq_false_2 _ Hout).
Qed.

Lemma recommend_unavailable_is_500_witness :
  ("vector_store" ∉ services (app fresh_process)
   \/ initialized (vector_store (app fresh_process)) = false)
  /\ recommend_furniture chair_request (app fresh_process)
     = (app fresh_process,
        Raise (HTTPException 500
                 (StrOf (if bool_decide ("vector_store" ∈ services (app fresh_process))
                         then HTTPException 503 (Text "Vector store not available")
                         else AttributeError)))).
Proof.
  assert (H : "vector_store" ∉ services (app fresh_process)
              \/ initialized (vector_store (app fresh_process)) = false)
    by (right; reflexivity).
  split; [exact H | exact (recommend_unavailable_is_500 chair_request _ H)].
Defined.

Lemma In_slice {A} (l : list A) (a b : Z) (x : A) : In x (Py.slice l a b) -> In x l.
Proof.
  unfold Py.slice. intros H.
  apply FusionFacts.In_firstn in H.
  rewrite <- (firstn_skipn (Py.slice_bound (length l) a) l).
  apply in_or_app. now right.
Qed.

Lemma select_products_incl (self : VectorStore) (query : string) (x : ProductMetadata) :
  In x (select_products self query) -> In x (faiss_metadata self).
Proof.
  unfold select_products.
  destruct (List.filter _ _) as [| y l] eqn:E; [trivial |].
  rewrite <- E. intros H. apply filter_In in H. tauto.
Qed.

(** The answer to a request that passed validation, once the services are
    up *)
Lemma recommend_ok (request : RecommendRequest) (app : App) :
  "vector_store" ∈ services app -> initialized (vector_store app) = true ->
  (include_description request = true -> "genai" ∈ services app) ->
  1 <= page request -> 1 <= size request ->
  let selected := select_products (vector_store app) (query request) in
  let shown := firstn (Z.to_nat (size request))
                 (skipn (Z.to_nat ((page request - 1) * size request)) selected) in
  (recommend_furniture request app).2
  = Ok {| resp_products := shown;
          resp_total_found := Z.of_nat (length selected);
          resp_total_pages := (Z.of_nat (length selected) + size request - 1) / size request;
          resp_search_time_ms := 50;
          resp_reasons := [ "Found " +:+ Py.str_of_nat (length selected)
                            +:+ " products matching '" +:+ query request +:+ "'" ];
          resp_descriptions :=
            if include_description request && genai_initialized app
            then map generate_description shown else [];
          resp_query := query request |}.
Proof.
  intros Hin Hinit Hgen Hpage Hsize. cbv zeta.
  unfold recommend_furniture, recommend_try, service_initialized.
  rewrite (bool_decide_eq_true_2 _ Hin), Hinit.
  unfold search, paginate, Py.floordiv.
  destruct (Z.eqb_spec (size request) 0); [lia |].
  cbn [rbind fst snd products total_found total_pages search_time_ms reasons].
  rewrite PaginationFacts.slice_nonneg by nia.
  replace ((page request - 1) * size request + size request
           - (page request - 1) * size request) with (size request) by ring.
  assert (Hvalid : (0 <=? Z.of_nat (length (select_products (vector_store app) (query request))))
                   && (0 <=? (Z.of_nat (length (select_products (vector_store app)
                                                  (query request)))
                              + size request - 1) / size request)
                   && Qle_bool 0 50 = true).
  { apply andb_true_intro. split; [apply andb_true_intro; split |].
    - apply Z.leb_le. lia.
    - apply Z.leb_le. apply Z.div_pos; lia.
    - reflexivity. }
  destruct (include_description request) eqn:Hd.
  - rewrite (bool_decide_eq_true_2 _ (Hgen eq_refl)). cbn [rbind andb].
    unfold make_response.
    cbn [products total_found total_pages search_time_ms reasons].
    now rewrite Hvalid.
  - cbn [rbind andb]. unfold make_response.
    cbn [products total_found total_pages search_time_ms reasons].
    now rewrite Hvalid.
Qed.

(** X14.  For a request that passed validation, with the vector store up
    (and the description service registered when descriptions are asked
    for), the handler succeeds: it shows at most [size] products, all of
    them loaded products, never more than [total_found], and one
    description per product shown when descriptions are on and none
    otherwise. *)
Theorem recommend_page_bounds (request : RecommendRequest) (app : App) :
  "vector_store" ∈ services app -> initialized (vector_store app) = true ->
  (include_description request = true -> "genai" ∈ services app) ->
  1 <= page request -> 1 <= size request ->
  exists response,
    (recommend_furniture request app).2 = Ok response
    /\ Z.of_nat (length (resp_products response)) <= size request
    /\ Z.of_nat (length (resp_products response)) <= resp_total_found response
    /\ (forall product, In product (resp_products response) ->
                        In product (faiss_metadata (vector_store app)))
    /\ length (resp_descriptions response)
       = (if include_description request && genai_initialized app
          then length (resp_products response) else 0%nat).
Proof.
  intros Hin Hinit Hgen Hpage Hsize.
  pose proof (recommend_ok request app Hin Hinit Hgen Hpage Hsize) as Hok.
  cbv zeta in Hok. eexists. split; [exact Hok |].
  cbn [resp_products resp_total_found resp_descriptions].
  split; [| split; [| split]].
  - rewrite length_firstn. lia.
  - rewrite length_firstn, length_skipn. lia.
  - intros product Hp. apply FusionFacts.In_firstn in Hp.
    apply (select_products_incl _ (query request)).
    rewrite <- (firstn_skipn (Z.to_nat ((page request - 1) * size request))
                  (select_products (vector_store app) (query request))).
    apply in_or_app. now right.
  - destruct (include_description request && genai_initialized app);
      [apply length_map | reflexivity].
Qed.

Lemma recommend_page_bounds_witness :
  "vector_store" ∈ services demo_app /\ initialized (vector_store demo_app) = true /\
  (include_description chair_request = true -> "genai" ∈ services demo_app) /\
  1 <= page chair_request /\ 1 <= size chair_request /\
  exists response,
    (recommend_furniture chair_request demo_app).2 = Ok response
    /\ Z.of_nat (length (resp_products response)) <= size chair_request
    /\ Z.of_nat (length (resp_products response)) <= resp_total_found response
    /\ (forall product, In product (resp_products response) ->
                        In product (faiss_metadata (vector_store demo_app)))
    /\ length (resp_descriptions response)
       = (if include_description chair_request && genai_initialized demo_app
          then length (resp_products response) else 0%nat).
Proof.
  assert (H1 : "vector_store" ∈ services demo_app)
    by (unfold demo_app; cbn [services]; set_solver).
  assert (H2 : include_description chair_request = true -> "genai" ∈ services demo_app)
    by (intros _; unfold demo_app; cbn [services]; set_solver).
  assert (H3 : 1 <= page chair_request) by (simpl; lia).
  assert (H4 : 1 <= size chair_request) by (simpl; lia).
  split; [exact H1 | split; [reflexivity | split; [exact H2 | split; [exact H3 |
    split; [exact H4 |]]]]].
  exact (recommend_page_bounds chair_request demo_app H1 eq_refl H2 H3 H4).
Defined.

(** X15.  After start-up, from any state and whether or not the CSV file
    loads, the four services report healthy, the catalogue is the loaded
    products or, when loading raised, the two demo products, and every
    request that passed validation is answered without error. *)
Theorem startup_serves (p : Process) (real : result (list ProductMetadata))
  (request : RecommendRequest) :
  1 <= page request -> 1 <= size request ->
  let started := lifespan_startup p real in
  status (health_check started) = HEALTHY
  /\ faiss_metadata (vector_store (app started))
     = match real with Ok loaded => loaded | Raise _ => _load_demo_products end
  /\ exists response, (recommend_furniture request (app started)).2 = Ok response.
Proof.
  intros Hpage Hsize. cbv zeta.
  assert (Hreg : forall name,
            In name ["vector_store"; "genai"; "cv_classifier"; "analytics"] ->
            name ∈ services (app (lifespan_startup p real))).
  { intros name Hname. cbn [lifespan_startup app services].
    apply elem_of_union. left. simpl in Hname.
    destruct Hname as [<- | [<- | [<- | [<- | []]]]]; set_solver. }
  split; [| split].
  - rewrite health_check_registered by (apply Hreg; simpl; tauto). reflexivity.
  - reflexivity.
  - eexists. apply recommend_ok; try assumption.
    + apply Hreg. simpl. tauto.
    + reflexivity.
    + intros _. apply Hreg. simpl. tauto.
Qed.

Lemma startup_serves_witness :
  1 <= page chair_request /\ 1 <= size chair_request /\
  status (health_check (lifespan_startup fresh_process (Raise ValueError))) = HEALTHY
  /\ faiss_metadata (vector_store (app (lifespan_startup fresh_process (Raise ValueError))))
     = _load_demo_products
  /\ exists response,
       (recommend_furniture chair_request
          (app (lifespan_startup fresh_process (Raise ValueError)))).2 = Ok response.
Proof.
  assert (H1 : 1 <= page chair_request) by (simpl; lia).
  assert (H2 : 1 <= size chair_request) by (simpl; lia).
  split; [exact H1 | split; [exact H2 |]].
  exact (startup_serves fresh_process (Raise ValueError) chair_request H1 H2).
Defined.

End LifecycleFacts.

(** ** Pages and matches *)

Module CatalogueFacts.
Import Server Lifecycle.

Lemma firstn_add {A} (l : list A) :
  forall a b, firstn (a + b) l = firstn a l ++ firstn b (skipn a l).
Proof.
  induction l as [| x l IH]; intros a b.
  - now rewrite skipn_nil, !firstn_nil.
  - destruct a as [| a]; [reflexivity |]. simpl. f_equal. apply IH.
Qed.

(** Consecutive chunks of [s] elements make up a prefix of the list. *)
Lemma concat_chunks {A} (l : list A) (s n : nat) :
  concat (map (fun p => firstn s (skipn (p * s) l)) (seq 0 n)) = firstn (n * s) l.
Proof.
  induction n as [| n IH]; [reflexivity |].
  rewrite seq_S, map_app, concat_app, IH. simpl.
  rewrite app_nil_r, <- firstn_add. f_equal. lia.
Qed.

Lemma page_products_chunk (l : list ProductMetadata) (p : nat) (size : Z) :
  1 <= size ->
  page_products l (Z.of_nat (S p)) size
  = firstn (Z.to_nat size) (skipn (p * Z.to_nat size) l).
Proof.
  intros Hs. unfold page_products, paginate, Py.floordiv.
  destruct (Z.eqb_spec size 0); [lia |]. cbn [rbind fst].
  rewrite PaginationFacts.slice_nonneg by nia.
  f_equal; [f_equal; lia | f_equal; nia].
Qed.

(** X10.  The pages cover the list: for [size >= 1], pages 1 to
    [total_pages] put end to end are the paginated list, nothing lost,
    nothing twice. *)
Theorem pages_cover_the_list (l : list ProductMetadata) (size : Z) :
  1 <= size ->
  concat (map (fun p => page_products l (Z.of_nat p) size)
            (seq 1 (Z.to_nat ((Z.of_nat (length l) + size - 1) / size))))
  = l.
Proof.
  intros Hs.
  rewrite <- seq_shift, map_map.
  rewrite (map_ext _ (fun p => firstn (Z.to_nat size) (skipn (p * Z.to_nat size) l)))
    by (intros p; now apply page_products_chunk).
  rewrite concat_chunks. apply firstn_all2.
  destruct (PaginationFacts.total_pages_ceil (Z.of_nat (length l)) size ltac:(lia) Hs)
    as [Hceil _].
  cbv zeta in Hceil. nia.
Qed.

Lemma pages_cover_the_list_witness :
  1 <= 1 /\
  concat (map (fun p => page_products _load_demo_products (Z.of_nat p) 1)
            (seq 1 (Z.to_nat ((Z.of_nat (length _load_demo_products) + 1 - 1) / 1))))
  = _load_demo_products.
Proof.
  split; [lia | apply (pages_cover_the_list _load_demo_products 1); lia].
Defined.

(** X11.  When some loaded product matches the query, [search] (with a
    page size other than 0) counts exactly the matching products and
    shows matching loaded products only. *)
Theorem search_shows_matches_only (self : VectorStore) (query : string)
  (k page size : Z) (filters : list (string * string)) (user_image_url : option string) :
  (exists p, In p (faiss_metadata self) /\ matches (Py.lower query) p = true) ->
  size <> 0 ->
  exists r,
    search self query k page size filters user_image_url = Ok r
    /\ total_found r
       = Z.of_nat (length (List.filter (matches (Py.lower query)) (faiss_metadata self)))
    /\ forall x, In x (products r) ->
                 In x (faiss_metadata self) /\ matches (Py.lower query) x = true.
Proof.
  intros (p & Hp & Hm) Hsize.
  assert (Hsel : select_products self query
                 = List.filter (matches (Py.lower query)) (faiss_metadata self)).
  { unfold select_products.
    destruct (List.filter (matches (Py.lower query)) (faiss_metadata self)) eqn:E;
      [| reflexivity].
    assert (Hin : In p (List.filter (matches (Py.lower query)) (faiss_metadata self)))
      by (apply filter_In; now split).
    rewrite E in Hin. contradiction. }
  unfold search, paginate, Py.floordiv. rewrite Hsel.
  destruct (Z.eqb_spec size 0); [contradiction |].
  cbn [rbind]. eexists. split; [reflexivity |].
  cbn [total_found products fst snd]. split; [reflexivity |].
  intros x Hx. apply LifecycleFacts.In_slice in Hx. now apply filter_In in Hx.
Qed.

Lemma search_shows_matches_only_witness :
  (exists p, In p _load_demo_products /\ matches (Py.lower "Table") p = true) /\
  8 <> 0 /\
  exists r,
    search (mkVectorStore true _load_demo_products) "Table" 10 1 8 [] None = Ok r
    /\ total_found r
       = Z.of_nat (length (List.filter (matches (Py.lower "Table")) _load_demo_products))
    /\ forall x, In x (products r) ->
                 In x _load_demo_products /\ matches (Py.lower "Table") x = true.
Proof.
  assert (H : exists p, In p _load_demo_products /\ matches (Py.lower "Table") p = true).
  { eexists. split; [right; left; reflexivity | reflexivity]. }
  split; [exact H | split; [lia |]].
  exact (search_shows_matches_only (mkVectorStore true _load_demo_products) "Table"
           10 1 8 [] None H ltac:(lia)).
Defined.

End CatalogueFacts.

(** ** More on rank fusion and the reranker *)

Module FusionMoreFacts.
Import Mock Spec Spec2 FusionFacts.

Section Records.
Context {fl : PyFloat}.

Lemma get_by_id_In (cs : list ProductMetadata) (id : string) (c : ProductMetadata) :
  Py.get (by_id cs) id = Some c -> In c cs /\ uniq_id c = id.
Proof.
  induction cs as [| c0 cs IH]; simpl; [discriminate |].
  destruct (String.eqb_spec (uniq_id c0) id) as [E | Hne].
  - intros H. inversion H; subst. split; [now left | reflexivity].
  - intros H. destruct (IH H). split; [now right | assumption].
Qed.

(** After the image loop a stored candidate is the image channel's record
    when that channel lists its identifier, and the earlier record
    otherwise. *)
Lemma add_image_scores_records (image_scores : Py.dict pyfloat) (cs : list ProductMetadata) :
  forall st st' : fusion_state,
    add_image_scores image_scores cs st = Ok st' ->
    forall id c,
      Py.get (all_candidates st') id = Some c ->
      (In c cs /\ uniq_id c = id)
      \/ (~ In id (ids cs) /\ Py.get (all_candidates st) id = Some c).
Proof.
  induction cs as [| c0 cs IH]; intros st st' Hrun id c Hget.
  - simpl in Hrun. inversion Hrun; subst. right. split; [intros [] | exact Hget].
  - cbn [add_image_scores] in Hrun.
    destruct (Py.getitem image_scores (uniq_id c0)) as [s | e]; [| discriminate].
    cbn [rbind] in Hrun. rewrite image_step in Hrun. cbn [rbind] in Hrun.
    destruct (IH _ _ Hrun id c Hget) as [[Hin Hid] | [Hout Hold]].
    + left. split; [now right | exact Hid].
    + cbn [all_candidates] in Hold.
      destruct (String.eqb_spec (uniq_id c0) id) as [E | Hne].
      * rewrite <- E, get_set_same in Hold. inversion Hold; subst.
        left. split; [now left | reflexivity].
      * rewrite get_set_other in Hold by exact Hne.
        right. split; [| exact Hold].
        intros [E | Hin]; [contradiction | now apply Hout].
Qed.

Lemma collect_In (all : Py.dict ProductMetadata) (top : list (string * pyfloat)) :
  forall acc c,
    In c (collect all top acc) ->
    In c acc \/ exists e, In e top /\ Py.get all (fst e) = Some c.
Proof.
  induction top as [| [id s] top IH]; intros acc c H; simpl in H; [now left |].
  destruct (Py.get all id) as [c0 |] eqn:E.
  - destruct (IH _ _ H) as [Hacc | (e & He & Hc)].
    + apply in_app_or in Hacc. destruct Hacc as [Hacc | [<- | []]]; [now left |].
      right. exists (id, s). split; [now left | exact E].
    + right. exists e. split; [now right | exact Hc].
  - destruct (IH _ _ H) as [Hacc | (e & He & Hc)]; [now left |].
    right. exists e. split; [now right | exact Hc].
Qed.

(** X3.  For two ranked lists, a fused candidate whose identifier the
    image channel lists is the image channel's record, also when the text
    channel lists the identifier with another record; every other fused
    candidate is the text channel's record. *)
Theorem fused_record_is_image_channels (text image : list ProductMetadata) (k : Z) :
  List.NoDup (ids text) -> List.NoDup (ids image) ->
  exists fused,
    _reciprocal_rank_fusion text image k = Ok fused
    /\ forall c, In c fused ->
         (In (uniq_id c) (ids image) -> In c image)
         /\ (~ In (uniq_id c) (ids image) -> In c text).
Proof.
  intros Ht Hi.
  destruct (combine_spec text image Ht Hi) as (st & Hrun & _).
  unfold _reciprocal_rank_fusion. rewrite Hrun. cbn [rbind].
  eexists. split; [reflexivity |].
  intros c Hc. apply collect_In in Hc. destruct Hc as [[] | (e & _ & Hget)].
  unfold combine in Hrun. rewrite !assign_scores_table in Hrun by assumption.
  rewrite (add_text_scores_fresh _ text 0%nat) in Hrun;
    [| intros j c' Hj; now apply get_scored | exact Ht | exact Ht].
  cbn [rbind combined_scores all_candidates app] in Hrun.
  destruct (add_image_scores_records _ _ _ _ Hrun _ _ Hget) as [[Hin Hid] | [Hout Hold]].
  - split; [intros _; exact Hin |].
    intros Hno. exfalso. apply Hno. unfold ids. now apply in_map.
  - cbn [all_candidates] in Hold. apply get_by_id_In in Hold. destruct Hold as [Hin Hid].
    split; [| intros _; exact Hin].
    intros Himg. rewrite Hid in Himg. contradiction.
Qed.

End Records.

Lemma fused_record_is_image_channels_witness :
  let text := [mkProduct "A" "from text" "" 1 ["Chair"] ""] in
  let image := [mkProduct "A" "from image" "" 1 ["Chair"] ""] in
  List.NoDup (ids text) /\ List.NoDup (ids image) /\
  exists fused,
    _reciprocal_rank_fusion (fl := binary64) text image 5 = Ok fused
    /\ forall c, In c fused ->
         (In (uniq_id c) (ids image) -> In c image)
         /\ (~ In (uniq_id c) (ids image) -> In c text).
Proof.
  assert (Ht : List.NoDup (ids [mkProduct "A" "from text" "" 1 ["Chair"] ""])).
  { repeat constructor; simpl; intuition discriminate. }
  assert (Hi : List.NoDup (ids [mkProduct "A" "from image" "" 1 ["Chair"] ""])).
  { repeat constructor; simpl; intuition discriminate. }
  split; [exact Ht | split; [exact Hi |]].
  exact (fused_record_is_image_channels (fl := binary64) [mkProduct "A" "from text" "" 1 ["Chair"] ""]
           [mkProduct "A" "from image" "" 1 ["Chair"] ""] 5 Ht Hi).
Defined.

Section Identifiers.
Context {fl : PyFloat}.

Lemma length_insert_float_desc {A} (key : A -> pyfloat) (a : A) (l : list A) :
  length (Py.insert_float_desc key a l) = S (length l).
Proof.
  induction l as [| z l IH]; simpl; [reflexivity |].
  destruct (f_leb (key z) (key a)); simpl; [reflexivity | now rewrite IH].
Qed.

Lemma length_sorted_float_desc {A} (key : A -> pyfloat) (l : list A) :
  length (Py.sorted_float_desc key l) = length l.
Proof.
  induction l as [| a l IH]; simpl; [reflexivity |].
  now rewrite length_insert_float_desc, IH.
Qed.

Lemma length_filter_le {A} (f : A -> bool) (l : list A) :
  (length (List.filter f l) <= length l)%nat.
Proof.
  induction l as [| x l IH]; simpl; [lia |].
  destruct (f x); simpl; lia.
Qed.

(** X4.  For two ranked lists every fused identifier comes from a
    channel, and when [k] is at least the number of candidates of the two
    channels together every identifier of either channel is in the fused
    list. *)
Theorem fused_identifiers (text image : list ProductMetadata) (k : Z) :
  List.NoDup (ids text) -> List.NoDup (ids image) ->
  exists fused,
    _reciprocal_rank_fusion text image k = Ok fused
    /\ (forall id, In id (ids fused) -> In id (ids text) \/ In id (ids image))
    /\ (Z.of_nat (length text + length image) <= k ->
        forall id, In id (ids text) \/ In id (ids image) -> In id (ids fused)).
Proof.
  intros Ht Hi.
  destruct (fuse_ids text image k Ht Hi) as (st & fused & Hrun & Hfuse & Hids & _).
  destruct (combine_spec text image Ht Hi) as (st' & Hrun' & _ & Hkeys & _).
  rewrite Hrun in Hrun'. inversion Hrun'; subst st'. clear Hrun'.
  assert (Hkey : forall id, In id (Py.keys (combined_scores st))
                            <-> In id (ids text) \/ In id (ids image)).
  { intros id. rewrite Hkeys, in_app_iff, filter_In. split.
    - intros [H | [H _]]; [now left | now right].
    - intros [H | H]; [now left |].
      destruct (elem id (ids text)) eqn:E.
      + left. now apply elem_true.
      + right. split; [exact H | reflexivity]. }
  assert (Hsorted : forall id, In id (map fst (Py.sorted_float_desc snd (combined_scores st)))
                               <-> In id (Py.keys (combined_scores st))).
  { intros id. unfold Py.keys. rewrite !in_map_iff. split.
    - intros (e & He & Hin). exists e. split; [exact He |].
      exact (proj1 (In_sorted_float_desc snd _ _) Hin).
    - intros (e & He & Hin). exists e. split; [exact He |].
      exact (proj2 (In_sorted_float_desc snd _ _) Hin). }
  exists fused. split; [exact Hfuse | split].
  - intros id Hid. rewrite Hids in Hid. apply Hkey, Hsorted.
    apply in_map_iff in Hid. destruct Hid as (e & He & Hin).
    apply in_map_iff. exists e. split; [exact He |].
    unfold Py.slice_to in Hin. now apply In_firstn in Hin.
  - intros Hk id Hid. rewrite Hids.
    rewrite slice_to_nonneg by lia.
    rewrite firstn_all2; [now apply Hsorted, Hkey |].
    rewrite length_sorted_float_desc.
    assert (Hlen : length (combined_scores st) = length (Py.keys (combined_scores st)))
      by (unfold Py.keys; now rewrite length_map).
    rewrite Hlen, Hkeys, length_app.
    pose proof (length_filter_le (fun id => negb (elem id (ids text))) (ids image)) as Hf.
    unfold ids in *. rewrite !length_map in *. lia.
Qed.

End Identifiers.

Lemma fused_identifiers_witness :
  let text := [chair_A; chair_B; table_C] in
  let image := [chair_B; table_D; chair_A] in
  List.NoDup (ids text) /\ List.NoDup (ids image) /\
  exists fused,
    _reciprocal_rank_fusion (fl := binary64) text image 6 = Ok fused
    /\ (forall id, In id (ids fused) -> In id (ids text) \/ In id (ids image))
    /\ (Z.of_nat (length text + length image) <= 6 ->
        forall id, In id (ids text) \/ In id (ids image) -> In id (ids fused)).
Proof.
  assert (Ht : List.NoDup (ids [chair_A; chair_B; table_C])).
  { repeat constructor; simpl; intuition discriminate. }
  assert (Hi : List.NoDup (ids [chair_B; table_D; chair_A])).
  { repeat constructor; simpl; intuition discriminate. }
  split; [exact Ht | split; [exact Hi |]].
  exact (fused_identifiers (fl := binary64) [chair_A; chair_B; table_C]
           [chair_B; table_D; chair_A] 6 Ht Hi).
Defined.

Lemma assign_scores_last {fl : PyFloat} (cs : list ProductMetadata) (id : string) :
  forall (i : nat) (d : Py.dict pyfloat),
    Py.get (assign_scores i cs d) id
    = match last_rank id cs with
      | Some r => Some (reciprocal_rank (i + r))
      | None => Py.get d id
      end.
Proof.
  induction cs as [| c cs IH]; intros i d; simpl; [reflexivity |].
  rewrite IH. destruct (last_rank id cs) as [r |].
  - do 2 f_equal. lia.
  - destruct (String.eqb_spec (uniq_id c) id) as [<- | Hne].
    + rewrite get_set_same. now rewrite Nat.add_0_r.
    + now rewrite get_set_other.
Qed.

(** X5.  In a channel's score table an identifier has the score
    [1/(r+1)] of the rank [r] of its last occurrence: when a list repeats
    an identifier the later, lower score replaces the earlier one. *)
Theorem channel_score_of_last_occurrence {fl : PyFloat} (cs : list ProductMetadata)
  (id : string) :
  Py.get (assign_scores 0 cs []) id = option_map reciprocal_rank (last_rank id cs).
Proof.
  rewrite assign_scores_last. now destruct (last_rank id cs).
Qed.

(** X7.  With a negative [k] the reranker raises [ValueError] on the
    empty list ([remaining.remove(0)] finds nothing to remove) and returns
    the first candidate alone on every other list. *)
Theorem diversify_negative_k (query : string) (k : Z) (lambda_param : Q) :
  k < 0 ->
  _maximal_marginal_relevance [] query k lambda_param = Raise ValueError
  /\ forall c candidates,
       _maximal_marginal_relevance (c :: candidates) query k lambda_param = Ok [c].
Proof.
  intros Hk. split.
  - unfold _maximal_marginal_relevance. simpl length.
    destruct (Z.leb_spec (Z.of_nat 0) k); [lia | reflexivity].
  - intros c candidates. unfold _maximal_marginal_relevance.
    destruct (Z.leb_spec (Z.of_nat (length (c :: candidates))) k) as [H | _]; [lia |].
    unfold Py.range. cbn [length].
    rewrite (MmrFacts.remove_first 0 (length candidates)). cbn [rbind app].
    assert (Hstop : forall fuel remaining,
              mmr_loop fuel lambda_param k [0%nat] remaining = Ok [0%nat]).
    { intros fuel remaining. destruct fuel; cbn [mmr_loop length];
        destruct (Z.ltb_spec (Z.of_nat 1) k); try lia; reflexivity. }
    rewrite Hstop. reflexivity.
Qed.

Lemma diversify_negative_k_witness :
  -1 < 0 /\
  _maximal_marginal_relevance [] "q" (-1) (7 # 10) = Raise ValueError
  /\ forall c candidates,
       _maximal_marginal_relevance (c :: candidates) "q" (-1) (7 # 10) = Ok [c].
Proof.
  split; [lia | apply (diversify_negative_k "q" (-1) (7 # 10)); lia].
Defined.

End FusionMoreFacts.
